(** * pikepdf content-stream parsers (src/qpdf/parsers.cpp)

    A shallow embedding of the operand grouper ([OperandGrouper]), of the two
    instruction classes and of [unparse_content_stream], with the properties
    the specification states about them. *)

From Stdlib Require Import ZArith String Ascii List Lia.
From stdpp Require Import base strings gmap list pretty.
Import ListNotations.

Set Warnings "-register-all".

Local Open Scope string_scope.
Local Open Scope list_scope.
Local Open Scope Z_scope.

(** ** QPDF objects

    [QPDFObjectHandle] comes from the qpdf library.  The code of this file
    looks at the type code of an object, at the name of an operator, and asks
    for the bytes of an object; the payloads below are what a token of a
    content stream carries. *)

Inductive object_type_e : Set :=
| ot_uninitialized | ot_reserved | ot_null | ot_boolean | ot_integer
| ot_real | ot_string | ot_name | ot_array | ot_dictionary | ot_stream
| ot_operator | ot_inlineimage.

Inductive QPDFObjectHandle : Type :=
| Null
| Boolean (b : bool)
| Integer (n : Z)
| Real (digits : string)
| String_ (s : string)
| Name (s : string)
| Array (items : list QPDFObjectHandle)
| Dictionary (items : list (string * QPDFObjectHandle))
| Operator (s : string)
| InlineImage (data : string).

(** [typedef std::vector<QPDFObjectHandle> ObjectList;] *)
Abbreviation ObjectList := (list QPDFObjectHandle).

Definition getTypeCode (obj : QPDFObjectHandle) : object_type_e :=
  match obj with
  | Null => ot_null
  | Boolean _ => ot_boolean
  | Integer _ => ot_integer
  | Real _ => ot_real
  | String_ _ => ot_string
  | Name _ => ot_name
  | Array _ => ot_array
  | Dictionary _ => ot_dictionary
  | Operator _ => ot_operator
  | InlineImage _ => ot_inlineimage
  end.

Definition isOperator (obj : QPDFObjectHandle) : bool :=
  match getTypeCode obj with ot_operator => true | _ => false end.

(** [QPDFObjectHandle::newOperator] *)
Definition newOperator (s : string) : QPDFObjectHandle := Operator s.

(** [getOperatorValue]: every call in parsers.cpp sits behind an operator
    check (or follows [newOperator]); on another object qpdf answers with its
    placeholder. *)
Definition getOperatorValue (obj : QPDFObjectHandle) : string :=
  match obj with
  | Operator s => s
  | _ => "QPDFFAKENAME"
  end.

(** ** Machine integers *)

(** [uint]: 32 bits, unsigned. *)
Definition uint_modulus : Z := 2 ^ 32.

(** [n++] on a [uint]. *)
Definition uint_incr (n : Z) : Z := (n + 1) mod uint_modulus.

(** ** Instructions *)

Record ContentStreamInstruction : Type := mkContentStreamInstruction {
  operands : ObjectList;
  operator_ : QPDFObjectHandle
}.

Record ContentStreamInlineImage : Type := mkContentStreamInlineImage {
  image_metadata : ObjectList;
  image_data : QPDFObjectHandle
}.

(** ** Python values

    The values that reach this file through pybind11. *)

Inductive PyObject : Type :=
| PyInt (z : Z)
| PyStr (s : string)                       (* py::str, as its UTF-8 bytes *)
| PyBytes (s : string)                     (* py::bytes *)
| PyObjectHandle (h : QPDFObjectHandle)    (* pikepdf.Object *)
| PyObjectList (l : ObjectList)            (* the bound ObjectList *)
| PyPdfInlineImage (image_data : QPDFObjectHandle) (image_object : ObjectList)
                                           (* pikepdf.PdfInlineImage *)
| PySequence (items : list PyObject).      (* list or tuple *)

(** An item of the iterable given to [unparse_content_stream], and an element
    of the [py::list] the grouper fills: one of the two bound instruction
    classes, or a Python sequence, given by its elements (the fallback
    borrows the item as a [py::sequence]). *)
Inductive PyItem : Type :=
| ItemInstruction (csi : ContentStreamInstruction)
| ItemInlineImage (csii : ContentStreamInlineImage)
| ItemSequence (operands_op : list PyObject).

(** ** Exceptions *)

Inductive exception : Type :=
| value_error (what : string)              (* py::value_error *)
| type_error (what : string)               (* py::type_error *)
| index_error (what : string)              (* py::index_error *)
| cast_error                               (* py::cast_error *)
| error_already_set (what : string).       (* an exception raised by Python code *)

Inductive result (A : Type) : Type :=
| Ok (a : A)
| Raise (e : exception).
Arguments Ok {A} a.
Arguments Raise {A} e.

Definition bind {A B : Type} (r : result A) (k : A -> result B) : result B :=
  match r with
  | Ok a => k a
  | Raise e => Raise e
  end.

Notation "'try!' x <- r ; k" := (bind r (fun x => k))
  (at level 10, x name, r at level 100, k at level 200).

(** ** OperandGrouper *)

Record OperandGrouper : Type := mkOperandGrouper {
  whitelist : gset string;
  tokens : ObjectList;
  parsing_inline_image : bool;
  inline_metadata : ObjectList;
  instructions : list PyItem;
  count : Z;                 (* a [uint], as parsers.h declares it *)
  warning : string
}.

Definition set_tokens (t : ObjectList) (g : OperandGrouper) : OperandGrouper :=
  mkOperandGrouper (whitelist g) t (parsing_inline_image g) (inline_metadata g)
    (instructions g) (count g) (warning g).

Definition set_parsing_inline_image (b : bool) (g : OperandGrouper) : OperandGrouper :=
  mkOperandGrouper (whitelist g) (tokens g) b (inline_metadata g)
    (instructions g) (count g) (warning g).

Definition set_inline_metadata (m : ObjectList) (g : OperandGrouper) : OperandGrouper :=
  mkOperandGrouper (whitelist g) (tokens g) (parsing_inline_image g) m
    (instructions g) (count g) (warning g).

Definition append_instruction (i : PyItem) (g : OperandGrouper) : OperandGrouper :=
  mkOperandGrouper (whitelist g) (tokens g) (parsing_inline_image g)
    (inline_metadata g) (instructions g ++ [i]) (count g) (warning g).

Definition set_count (c : Z) (g : OperandGrouper) : OperandGrouper :=
  mkOperandGrouper (whitelist g) (tokens g) (parsing_inline_image g)
    (inline_metadata g) (instructions g) c (warning g).

Definition set_warning (w : string) (g : OperandGrouper) : OperandGrouper :=
  mkOperandGrouper (whitelist g) (tokens g) (parsing_inline_image g)
    (inline_metadata g) (instructions g) (count g) w.

Definition set_whitelist (w : gset string) (g : OperandGrouper) : OperandGrouper :=
  mkOperandGrouper w (tokens g) (parsing_inline_image g)
    (inline_metadata g) (instructions g) (count g) (warning g).

(** The loop [while (std::getline(f, s, ' '))] of the constructor: [s] is the
    piece being read.  At the end of the input a call that has extracted
    nothing fails and ends the loop, so a piece closed by the end of the
    input counts only when it is not empty. *)
Fixpoint getline_loop (f : string) (s : string) : list string :=
  match f with
  | EmptyString => if decide (s = "") then [] else [s]
  | String c f' =>
      if decide (c = " "%char) then s :: getline_loop f' ""
      else getline_loop f' (s +:+ String c "")
  end.

(** [OperandGrouper::OperandGrouper(const std::string &operators)] *)
Definition OperandGrouper_new (operators : string) : OperandGrouper :=
  {| whitelist := list_to_set (getline_loop operators "");
     tokens := [];
     parsing_inline_image := false;
     inline_metadata := [];
     instructions := [];
     count := 0;
     warning := "" |}.

(** [op[0]]: on the empty string this is the terminating NUL. *)
Definition first_char (op : string) : ascii :=
  match op with
  | String c _ => c
  | EmptyString => "000"%char
  end.

(** Lines 105-117 of [handleObject]: does the whitelist throw the operator
    [op] away? *)
Definition discarded_by_whitelist (whitelist : gset string) (op : string) : bool :=
  bool_decide (whitelist ≠ ∅) &&
  (if bool_decide (first_char op = "q"%char) || bool_decide (first_char op = "Q"%char)
   then bool_decide ("q" ∉ whitelist) && bool_decide ("Q" ∉ whitelist)
   else bool_decide (op ∉ whitelist)).

(** [OperandGrouper::handleObject].  [None] stands for the one place where
    the function has no defined behaviour: [this->tokens[0]] on an empty
    vector. *)
Definition handleObject (g : OperandGrouper) (obj : QPDFObjectHandle)
  : option OperandGrouper :=
  let g := set_count (uint_incr (count g)) g in
  match getTypeCode obj with
  | ot_operator =>
      let op := getOperatorValue obj in
      if discarded_by_whitelist (whitelist g) op then Some (set_tokens [] g)
      else
        let g' :=
          if bool_decide (op = "BI") then Some (set_parsing_inline_image true g)
          else if parsing_inline_image g then
            if bool_decide (op = "ID") then Some (set_inline_metadata (tokens g) g)
            else if bool_decide (op = "EI") then
              match tokens g with
              | [] => None
              | t0 :: _ =>
                  let csii := mkContentStreamInlineImage (inline_metadata g) t0 in
                  Some (set_inline_metadata [] (append_instruction (ItemInlineImage csii) g))
              end
            else Some g
          else
            let csi := mkContentStreamInstruction (tokens g) obj in
            Some (append_instruction (ItemInstruction csi) g)
        in
        option_map (set_tokens []) g'
  | _ => Some (set_tokens (tokens g ++ [obj]) g)
  end.

(** [OperandGrouper::handleEOF] *)
Definition handleEOF (g : OperandGrouper) : OperandGrouper :=
  match tokens g with
  | [] => g
  | _ :: _ => set_warning "Unexpected end of stream" g
  end.

Definition getInstructions (g : OperandGrouper) : list PyItem := instructions g.
Definition getWarning (g : OperandGrouper) : string := warning g.

(** The parser of qpdf hands the tokens of the stream to [handleObject] one
    after the other. *)
Fixpoint handleObjects (g : OperandGrouper) (T : ObjectList) : option OperandGrouper :=
  match T with
  | [] => Some g
  | obj :: T' =>
      match handleObject g obj with
      | Some g' => handleObjects g' T'
      | None => None
      end
  end.

(** ... and then calls [handleEOF]. *)
Definition parse_content_stream (operators : string) (T : ObjectList)
  : option OperandGrouper :=
  option_map handleEOF (handleObjects (OperandGrouper_new operators) T).

(** ** Services of the binding layer

    What parsers.cpp calls and does not define: the unparser of qpdf, the
    encoder of object_convert.cpp, the type caster of pikepdf.h, the Python
    class [PdfInlineImage], and Python's sequence protocol on objects other
    than lists and tuples. *)

Class Services : Type := {
  (** [QPDFObjectHandle::unparseBinary] *)
  unparseBinary : QPDFObjectHandle -> string;
  (** [objecthandle_encode]: a Python value as a qpdf object, or an exception *)
  objecthandle_encode : PyObject -> result QPDFObjectHandle;
  (** [py::cast<QPDFObjectHandle>], through the type caster of pikepdf.h:
      the object behind a Python value, or the exception of the cast *)
  cast_QPDFObjectHandle : PyObject -> result QPDFObjectHandle;
  (** [PdfInlineImage(image_data=..., image_object=...)]: the constructor
      returns or raises *)
  PdfInlineImage_init : QPDFObjectHandle -> ObjectList -> result unit;
  (** [iimage.unparse()], converted to [py::bytes] *)
  PdfInlineImage_unparse : PyObject -> result string;
  (** the elements of an object that is neither a list nor a tuple, seen as
      a [py::sequence]; an object that is no sequence raises *)
  foreign_sequence : PyObject -> result (list PyObject)
}.

Definition newline : string := String "010" "".

(** [std::string(s).c_str()]: the characters before the first NUL. *)
Fixpoint c_str (s : string) : string :=
  match s with
  | EmptyString => ""
  | String c s' => if decide (c = "000"%char) then "" else String c (c_str s')
  end.

Section Bindings.
Context {sv : Services}.

(** [operator<<(std::ostream &, ContentStreamInstruction &)]; [os] is what
    the stream holds already. *)
Definition write_instruction (os : string) (csi : ContentStreamInstruction) : string :=
  let os := fold_left (fun os obj => (os +:+ unparseBinary obj) +:+ " ")
                      (operands csi) os in
  os +:+ unparseBinary (operator_ csi).

(** [ContentStreamInlineImage::get_inline_image] *)
Definition get_inline_image (csii : ContentStreamInlineImage) : result PyObject :=
  try! _ <- PdfInlineImage_init (image_data csii) (image_metadata csii);
  Ok (PyPdfInlineImage (image_data csii) (image_metadata csii)).

(** [ContentStreamInlineImage::get_operands] *)
Definition get_operands (csii : ContentStreamInlineImage) : result PyObject :=
  try! iimage <- get_inline_image csii;
  Ok (PySequence [iimage]).

(** [ContentStreamInlineImage::get_operator] *)
Definition get_operator (csii : ContentStreamInlineImage) : QPDFObjectHandle :=
  newOperator "INLINE IMAGE".

(** [operator<<(std::ostream &, ContentStreamInlineImage &)] *)
Definition write_inline_image (os : string) (csii : ContentStreamInlineImage)
  : result string :=
  try! iimage <- get_inline_image csii;
  try! ii_bytes <- PdfInlineImage_unparse iimage;
  Ok (os +:+ ii_bytes).

(** An object borrowed as [py::sequence]: its elements. *)
Definition sequence_items (o : PyObject) : result (list PyObject) :=
  match o with
  | PySequence items => Ok items
  | _ => foreign_sequence o
  end.

(** Lines 185-202 of [unparse_content_stream]: the operator of a pair. *)
Definition fallback_operator (n : Z) (operator_ : PyObject) : result QPDFObjectHandle :=
  match operator_ with
  | PyStr s => Ok (newOperator (c_str s))
  | PyBytes s => Ok (newOperator (c_str s))
  | _ =>
      try! op <- cast_QPDFObjectHandle operator_;
      if isOperator op then Ok op
      else Raise (type_error
             ("At content stream instruction " +:+ pretty n +:+
              ", the operator is not of type pikepdf.Operator, bytes or str"))
  end.

(** The loop of lines 217-220: the operands of a pair, encoded and written. *)
Fixpoint write_operands (ss : string) (operands : list PyObject) : result string :=
  match operands with
  | [] => Ok ss
  | operand :: rest =>
      try! obj <- objecthandle_encode operand;
      write_operands ((ss +:+ unparseBinary obj) +:+ " ") rest
  end.

(** Lines 177-222: the fallback, for an item that is neither of the two
    bound classes; [n] counts the items that went through it before. *)
Definition unparse_fallback (n : Z) (ss : string) (operands_op : list PyObject)
  : result string :=
  match operands_op with
  | [operands0; operator_] =>
      try! op <- fallback_operator n operator_;
      if bool_decide (getOperatorValue op = "INLINE IMAGE") then
        try! operands <- sequence_items operands0;
        match operands with
        | [] => Raise (error_already_set "IndexError")
        | iimage :: _ =>
            match iimage with
            | PyPdfInlineImage _ _ =>
                try! iimage_unparsed_bytes <- PdfInlineImage_unparse iimage;
                Ok (ss +:+ iimage_unparsed_bytes)
            | _ => Raise (value_error
                     ("Expected PdfInlineImage as operand for instruction "
                      +:+ pretty n))
            end
        end
      else
        try! operands <- sequence_items operands0;
        try! ss <- write_operands ss operands;
        Ok (ss +:+ unparseBinary op)
  | _ =>
      Raise (value_error
        ("Wrong number of operands at content stream instruction "
         +:+ pretty n +:+ "; expected 2"))
  end.

(** The [for] loop of [unparse_content_stream], with its three variables. *)
Fixpoint unparse_loop (n : Z) (delim ss : string) (contentstream : list PyItem)
  : result string :=
  match contentstream with
  | [] => Ok ss
  | item :: rest =>
      let ss := ss +:+ delim in
      let delim := newline in
      match item with
      | ItemInstruction csi =>
          unparse_loop n delim (write_instruction ss csi) rest
      | ItemInlineImage csii =>
          try! ss <- write_inline_image ss csii;
          unparse_loop n delim ss rest
      | ItemSequence operands_op =>
          try! ss <- unparse_fallback n ss operands_op;
          unparse_loop (uint_incr n) delim ss rest
      end
  end.

(** [py::bytes unparse_content_stream(py::iterable contentstream)] *)
Definition unparse_content_stream (contentstream : list PyItem) : result string :=
  unparse_loop 0 "" "" contentstream.

(** *** The bindings of [init_parsers] *)

(** [ContentStreamInstruction.operator] and [.operands] *)
Definition csi_operator (csi : ContentStreamInstruction) : PyObject :=
  PyObjectHandle (operator_ csi).
Definition csi_operands (csi : ContentStreamInstruction) : PyObject :=
  PyObjectList (operands csi).

(** [ContentStreamInstruction.__getitem__]; [index] is a C [int]. *)
Definition csi_getitem (csi : ContentStreamInstruction) (index : Z) : result PyObject :=
  if ((index =? 0) || (index =? -2))%Z then Ok (PyObjectList (operands csi))
  else if ((index =? 1) || (index =? -1))%Z then Ok (PyObjectHandle (operator_ csi))
  else Raise (index_error ("Invalid index " +:+ pretty index)).

Definition csi_len (csi : ContentStreamInstruction) : Z := 2.

(** [ContentStreamInlineImage.operator] and [.operands] *)
Definition csii_operator (csii : ContentStreamInlineImage) : result PyObject :=
  Ok (PyObjectHandle (newOperator "INLINE IMAGE")).
Definition csii_operands (csii : ContentStreamInlineImage) : result PyObject :=
  get_operands csii.

(** [ContentStreamInlineImage.__getitem__] *)
Definition csii_getitem (csii : ContentStreamInlineImage) (index : Z) : result PyObject :=
  if ((index =? 0) || (index =? -2))%Z then get_operands csii
  else if ((index =? 1) || (index =? -1))%Z then Ok (PyObjectHandle (get_operator csii))
  else Raise (index_error ("Invalid index " +:+ pretty index)).

Definition csii_len (csii : ContentStreamInlineImage) : Z := 2.

End Bindings.

(** ** Specification-side definitions *)

(** A token that is no operator. *)
Definition is_operand (obj : QPDFObjectHandle) : Prop := isOperator obj = false.

(** A well-formed run: operands, then one operator that is none of the
    inline-image markers. *)
Definition run : Type := ObjectList * QPDFObjectHandle.

Definition inline_marker (op : string) : Prop :=
  op = "BI" \/ op = "ID" \/ op = "EI".

Definition well_formed_run (r : run) : Prop :=
  Forall is_operand (fst r) /\
  isOperator (snd r) = true /\
  ~ inline_marker (getOperatorValue (snd r)).

Definition run_tokens (r : run) : ObjectList := fst r ++ [snd r].

(** The token stream made of the runs [rs], one after the other. *)
Definition runs_tokens (rs : list run) : ObjectList := concat (map run_tokens rs).

Definition run_instruction (r : run) : PyItem :=
  ItemInstruction (mkContentStreamInstruction (fst r) (snd r)).

(** No [BI], [ID] or [EI] operator in the stream. *)
Definition no_inline_images (T : ObjectList) : Prop :=
  Forall (fun obj => isOperator obj = true -> ~ inline_marker (getOperatorValue obj)) T.

(** The stream is empty or ends with an operator. *)
Definition ends_with_operator (T : ObjectList) : Prop :=
  match last T with
  | None => True
  | Some obj => isOperator obj = true
  end.

(** What the grouping of a stream without whitelist and without inline
    images is, said on the tokens alone: [buf] holds the operands read since
    the last operator; the result is the instructions and the operands left
    at the end. *)
Fixpoint group_from (buf : ObjectList) (T : ObjectList)
  : list ContentStreamInstruction * ObjectList :=
  match T with
  | [] => ([], buf)
  | obj :: T' =>
      if isOperator obj then
        let '(instrs, pending) := group_from [] T' in
        (mkContentStreamInstruction buf obj :: instrs, pending)
      else group_from (buf ++ [obj]) T'
  end.

(** The item is an inline-image instruction. *)
Definition is_inline_image_item (i : PyItem) : Prop :=
  match i with
  | ItemInlineImage _ => True
  | _ => False
  end.

(** The number of items of [contentstream] that take the fallback path. *)
Fixpoint fallback_count (contentstream : list PyItem) : nat :=
  match contentstream with
  | [] => 0%nat
  | ItemSequence _ :: rest => S (fallback_count rest)
  | _ :: rest => fallback_count rest
  end.

(** The pieces [bs], each one after its delimiter: [delim] before the first,
    a newline before the others. *)
Fixpoint delimited (delim : string) (bs : list string) : string :=
  match bs with
  | [] => ""
  | b :: bs' => delim +:+ b +:+ delimited newline bs'
  end.

(** [n] after the items of [contentstream], none of which raised. *)
Definition n_after (n : Z) (contentstream : list PyItem) : Z :=
  (n + Z.of_nat (fallback_count contentstream)) mod uint_modulus.

(** Each Python value of [operands] is encoded as the object of [objs] at
    the same place. *)
Definition encoded_as {sv : Services} (operands : list PyObject) (objs : ObjectList) : Prop :=
  Forall2 (fun operand obj => objecthandle_encode operand = Ok obj) operands objs.

Section Rendering.
Context {sv : Services}.

(** The whitespace-normalised rendering of a token stream, said on the
    tokens alone: the bytes of each token, one space after an operand, one
    newline after an operator, nothing after the last token. *)
Fixpoint render_tokens (T : ObjectList) : string :=
  match T with
  | [] => ""
  | obj :: T' =>
      match T' with
      | [] => unparseBinary obj
      | _ :: _ =>
          unparseBinary obj +:+ (if isOperator obj then newline else " ")
          +:+ render_tokens T'
      end
  end.

(** The bytes one item adds to the stream; [n] as in [unparse_fallback]. *)
Definition item_bytes (n : Z) (item : PyItem) : result string :=
  match item with
  | ItemInstruction csi => Ok (write_instruction "" csi)
  | ItemInlineImage csii => write_inline_image "" csii
  | ItemSequence operands_op => unparse_fallback n "" operands_op
  end.

(** The value of [n] after an item that did not raise. *)
Definition next_n (n : Z) (item : PyItem) : Z :=
  match item with
  | ItemSequence _ => uint_incr n
  | _ => n
  end.

(** The bytes of each item of the iterable, in order; the first exception
    ends it. *)
Fixpoint items_bytes (n : Z) (contentstream : list PyItem) : result (list string) :=
  match contentstream with
  | [] => Ok []
  | item :: rest =>
      try! b <- item_bytes n item;
      try! bs <- items_bytes (next_n n item) rest;
      Ok (b :: bs)
  end.

End Rendering.

(** ** An instance of the services

    Plain stand-ins, to run the definitions on concrete streams: numbers in
    decimal, names and operators as they are, strings in parentheses. *)

Fixpoint plain_unparse (obj : QPDFObjectHandle) : string :=
  match obj with
  | Null => "null"
  | Boolean b => if b then "true" else "false"
  | Integer n => pretty n
  | Real digits => digits
  | String_ s => "(" +:+ s +:+ ")"
  | Name s => s
  | Array items =>
      "[ " +:+
      (fix go (l : ObjectList) : string :=
         match l with
         | [] => ""
         | x :: l' => plain_unparse x +:+ " " +:+ go l'
         end) items +:+ "]"
  | Dictionary items =>
      "<< " +:+
      (fix go (l : list (string * QPDFObjectHandle)) : string :=
         match l with
         | [] => ""
         | (k, x) :: l' => k +:+ " " +:+ plain_unparse x +:+ " " +:+ go l'
         end) items +:+ ">>"
  | Operator s => s
  | InlineImage data => data
  end.

Definition plain_encode (o : PyObject) : result QPDFObjectHandle :=
  match o with
  | PyInt z => Ok (Integer z)
  | PyStr s => Ok (String_ s)
  | PyBytes s => Ok (String_ s)
  | PyObjectHandle h => Ok h
  | _ => Raise (type_error "Can't convert this object to a PDF object")
  end.

Definition plain_iimage_unparse (o : PyObject) : result string :=
  match o with
  | PyPdfInlineImage data metadata =>
      Ok ("BI " +:+ String.concat " " (map plain_unparse metadata) +:+ " ID "
          +:+ plain_unparse data +:+ " EI")
  | _ => Raise (error_already_set "AttributeError")
  end.

(** Only a pikepdf.Object casts to a [QPDFObjectHandle]. *)
Definition plain_cast (o : PyObject) : result QPDFObjectHandle :=
  match o with
  | PyObjectHandle h => Ok h
  | _ => Raise cast_error
  end.

(** Nothing but lists and tuples can be iterated. *)
Definition plain_iter (o : PyObject) : result (list PyObject * option exception) :=
  Raise (error_already_set "TypeError").

Definition plain_services : Services :=
  {| unparseBinary := plain_unparse;
     objecthandle_encode := plain_encode;
     cast_QPDFObjectHandle := plain_cast;
     PdfInlineImage_init := fun _ _ => Ok tt;
     PdfInlineImage_unparse := plain_iimage_unparse;
     foreign_sequence := fun o =>
       match o with
       | PyObjectList l => Ok (map PyObjectHandle l)
       | _ => Raise (error_already_set "TypeError")
       end |}.

(** ** The rest of the bindings and of the vocabulary

    The setter of [ContentStreamInstruction.operands], and the notions the
    further properties speak of. *)

Section OperandsSetter.
Context {sv : Services}.

(** Python's iterator protocol on an object that is neither a list nor a
    tuple: [iter(o)] raises, or the iterator yields values and then stops,
    normally or with an exception. *)
Variable foreign_iter : PyObject -> result (list PyObject * option exception).

(** [for (auto &item : objlist)]: what the iteration yields and how it ends. *)
Definition py_iterate (o : PyObject) : result (list PyObject * option exception) :=
  match o with
  | PySequence items => Ok (items, None)
  | _ => foreign_iter o
  end.

(** The loop of lines 242-244: each value is encoded when it is yielded. *)
Fixpoint encode_items (newlist : ObjectList) (items : list PyObject)
    (stop : option exception) : result ObjectList :=
  match items with
  | [] =>
      match stop with
      | None => Ok newlist
      | Some e => Raise e
      end
  | item :: rest =>
      try! obj <- objecthandle_encode item;
      encode_items (newlist ++ [obj]) rest stop
  end.

(** The setter of [ContentStreamInstruction.operands] (lines 237-247): the
    instruction after the assignment, or the exception that leaves it as it
    was. *)
Definition csi_set_operands (csi : ContentStreamInstruction) (objlist : PyObject)
  : result ContentStreamInstruction :=
  match objlist with
  | PyObjectList l => Ok (mkContentStreamInstruction l (operator_ csi))
  | _ =>
      try! it <- py_iterate objlist;
      try! newlist <- encode_items [] (fst it) (snd it);
      Ok (mkContentStreamInstruction newlist (operator_ csi))
  end.

End OperandsSetter.

(** No space in the string. *)
Fixpoint no_space (s : string) : Prop :=
  match s with
  | EmptyString => True
  | String c s' => c <> " "%char /\ no_space s'
  end.

(** No NUL in the string. *)
Fixpoint no_nul (s : string) : Prop :=
  match s with
  | EmptyString => True
  | String c s' => c <> "000"%char /\ no_nul s'
  end.

(** The tokens of one inline image: BI, the metadata, ID, the payload and
    whatever the tokenizer hands over after it, EI. *)
Definition inline_image_tokens (metadata : ObjectList) (payload : QPDFObjectHandle)
    (extra : ObjectList) : ObjectList :=
  Operator "BI" :: metadata ++ Operator "ID" :: payload :: extra ++ [Operator "EI"].

(** What the grouper is meant to build: operands around an operator, or
    operands around a payload. *)
Definition grouped_item (i : PyItem) : Prop :=
  match i with
  | ItemInstruction csi =>
      Forall is_operand (operands csi) /\ isOperator (operator_ csi) = true
  | ItemInlineImage csii =>
      Forall is_operand (image_metadata csii) /\ is_operand (image_data csii)
  | ItemSequence _ => False
  end.

(** The whitelist [w] lets the instruction through. *)
Definition kept_by_whitelist (w : gset string) (csi : ContentStreamInstruction) : Prop :=
  discarded_by_whitelist w (getOperatorValue (operator_ csi)) = false.

#[global] Instance kept_by_whitelist_dec (w : gset string) (csi : ContentStreamInstruction)
  : Decision (kept_by_whitelist w csi) :=
  bool_eq_dec (discarded_by_whitelist w (getOperatorValue (operator_ csi))) false.

(** The number of operator tokens of a stream. *)
Definition operator_count (T : ObjectList) : nat :=
  length (filter (fun obj => isOperator obj = true) T).

(** What holds of a grouper at every moment of a parse: the buffer and the
    metadata hold operands only, and every instruction is of the two kinds
    the grouper builds. *)
Definition grouper_invariant (g : OperandGrouper) : Prop :=
  Forall is_operand (tokens g) /\
  Forall is_operand (inline_metadata g) /\
  Forall grouped_item (instructions g).

(** An instruction seen as the pair its [__getitem__] gives. *)
Definition csi_pair (csi : ContentStreamInstruction) : PyItem :=
  ItemSequence [csi_operands csi; csi_operator csi].

(** ** Tactics for concrete streams *)

(** Every token of an explicit list is an operand. *)
Ltac operands_only := repeat constructor.

(** No token of an explicit list is a BI, ID or EI operator. *)
Ltac no_markers :=
  repeat (apply List.Forall_cons;
          [ let H := fresh in
            intros H;
            first [ discriminate H
                  | intros [H' | [H' | H']]; discriminate H' ] |]);
  apply List.Forall_nil.

(** No token of an explicit list is a BI operator. *)
Ltac no_BI :=
  repeat (apply List.Forall_cons;
          [ let H := fresh in
            intros H; first [ discriminate H | simpl; discriminate ] |]);
  apply List.Forall_nil.

(** * Properties *)

(** ** Strings *)

Lemma append_cons (c : ascii) (s t : string) :
  String c s +:+ t = String c (s +:+ t).
Proof. reflexivity. Qed.

Lemma append_nil_l (s : string) : "" +:+ s = s.
Proof. reflexivity. Qed.

Lemma append_nil_r (s : string) : s +:+ "" = s.
Proof.
  induction s as [|c s IH]; [reflexivity|].
  now rewrite append_cons, IH.
Qed.

Lemma append_assoc (s1 s2 s3 : string) : (s1 +:+ s2) +:+ s3 = s1 +:+ s2 +:+ s3.
Proof.
  induction s1 as [|c s1 IH]; [reflexivity|].
  now rewrite !append_cons, IH.
Qed.

(** ** The grouper, one token at a time *)

Lemma isOperator_inv (obj : QPDFObjectHandle) :
  isOperator obj = true -> obj = Operator (getOperatorValue obj).
Proof. destruct obj; simpl; intros H; try discriminate H; reflexivity. Qed.

Lemma handleObject_operand (g : OperandGrouper) (obj : QPDFObjectHandle) :
  is_operand obj ->
  handleObject g obj
  = Some (set_tokens (tokens g ++ [obj]) (set_count (uint_incr (count g)) g)).
Proof. destruct obj; intros H; try discriminate H; reflexivity. Qed.

Lemma handleObject_discarded (g : OperandGrouper) (op : string) :
  discarded_by_whitelist (whitelist g) op = true ->
  handleObject g (Operator op)
  = Some (set_tokens [] (set_count (uint_incr (count g)) g)).
Proof. intros H. unfold handleObject. simpl. now rewrite H. Qed.

Lemma handleObject_instruction (g : OperandGrouper) (op : string) :
  discarded_by_whitelist (whitelist g) op = false ->
  parsing_inline_image g = false ->
  op <> "BI" ->
  handleObject g (Operator op)
  = Some (set_tokens []
            (append_instruction
               (ItemInstruction (mkContentStreamInstruction (tokens g) (Operator op)))
               (set_count (uint_incr (count g)) g))).
Proof.
  intros Hw Hp Hbi. unfold handleObject. simpl. rewrite Hw.
  rewrite bool_decide_eq_false_2 by assumption.
  now rewrite Hp.
Qed.

Lemma handleObject_BI (g : OperandGrouper) :
  discarded_by_whitelist (whitelist g) "BI" = false ->
  handleObject g (Operator "BI")
  = Some (set_tokens []
            (set_parsing_inline_image true (set_count (uint_incr (count g)) g))).
Proof. intros Hw. unfold handleObject. simpl. now rewrite Hw. Qed.

Lemma discarded_empty_whitelist (op : string) :
  discarded_by_whitelist ∅ op = false.
Proof.
  unfold discarded_by_whitelist.
  rewrite bool_decide_eq_false_2; [reflexivity | intros H; now apply H].
Qed.

(** No step touches the warning or the whitelist. *)
Lemma handleObject_warning (g g' : OperandGrouper) (obj : QPDFObjectHandle) :
  handleObject g obj = Some g' ->
  warning g' = warning g /\ whitelist g' = whitelist g.
Proof.
  unfold handleObject. intros H.
  destruct (getTypeCode obj); simpl in H;
    try (injection H as <-; now split).
  destruct (discarded_by_whitelist _ _); [injection H as <-; now split|].
  destruct (bool_decide _); [injection H as <-; now split|].
  destruct (parsing_inline_image g); [|injection H as <-; now split].
  destruct (bool_decide _); [injection H as <-; now split|].
  destruct (bool_decide _); [|injection H as <-; now split].
  destruct (tokens g); [discriminate H|injection H as <-; now split].
Qed.

Lemma handleObjects_warning (T : ObjectList) :
  forall g g', handleObjects g T = Some g' ->
  warning g' = warning g /\ whitelist g' = whitelist g.
Proof.
  induction T as [|obj T IH]; simpl; intros g g' H.
  - injection H as <-. now split.
  - destruct (handleObject g obj) as [g1|] eqn:E; [|discriminate H].
    destruct (handleObject_warning _ _ _ E) as [E1 E2].
    destruct (IH _ _ H) as [E3 E4]. split; congruence.
Qed.

Lemma handleObjects_app (T1 T2 : ObjectList) :
  forall g,
  handleObjects g (T1 ++ T2)
  = match handleObjects g T1 with
    | Some g1 => handleObjects g1 T2
    | None => None
    end.
Proof.
  induction T1 as [|obj T1 IH]; simpl; intros g; [reflexivity|].
  destruct (handleObject g obj); [apply IH | reflexivity].
Qed.

(** ** Grouping without whitelist and outside an inline image *)

Lemma group_from_operands (ops : ObjectList) :
  forall buf T, Forall is_operand ops ->
  group_from buf (ops ++ T) = group_from (buf ++ ops) T.
Proof.
  induction ops as [|obj ops IH]; intros buf T H; simpl.
  - now rewrite app_nil_r.
  - inversion H as [|? ? Hobj Hops]; subst.
    unfold is_operand in Hobj. rewrite Hobj.
    rewrite IH by assumption. now rewrite <- app_assoc.
Qed.

Lemma group_from_app (T1 : ObjectList) :
  forall buf T2,
  group_from buf (T1 ++ T2)
  = (fst (group_from buf T1) ++ fst (group_from (snd (group_from buf T1)) T2),
     snd (group_from (snd (group_from buf T1)) T2)).
Proof.
  induction T1 as [|obj T1 IH]; intros buf T2; simpl.
  - now destruct (group_from buf T2).
  - destruct (isOperator obj).
    + rewrite (IH [] T2). now destruct (group_from [] T1).
    + apply IH.
Qed.

Lemma group_from_runs (rs : list run) :
  Forall well_formed_run rs ->
  group_from [] (runs_tokens rs)
  = (map (fun r => mkContentStreamInstruction (fst r) (snd r)) rs, []).
Proof.
  induction rs as [|r rs IH]; intros H; [reflexivity|].
  inversion H as [|? ? (Hops & Hop & _) Hrs]; subst.
  unfold runs_tokens in *. simpl. unfold run_tokens at 1.
  rewrite <- app_assoc, group_from_operands by assumption.
  simpl. rewrite Hop, (IH Hrs). reflexivity.
Qed.

Lemma group_from_pending (T : ObjectList) :
  forall buf,
  ends_with_operator T -> (T = [] -> buf = []) ->
  snd (group_from buf T) = [].
Proof.
  induction T as [|obj T IH]; intros buf Hend Hbuf; simpl.
  - now apply Hbuf.
  - assert (HT : T <> [] -> ends_with_operator T).
    { intros Hne. unfold ends_with_operator in *. now destruct T. }
    destruct (isOperator obj) eqn:E.
    + specialize (IH []). destruct (group_from [] T) as [instrs pending]. simpl in *.
      apply IH; [|reflexivity].
      destruct T; [exact I | now apply HT].
    + apply IH.
      * destruct T; [|now apply HT].
        unfold ends_with_operator in Hend. simpl in Hend. congruence.
      * intros ->. unfold ends_with_operator in Hend. simpl in Hend. congruence.
Qed.

Lemma handleEOF_fields (g : OperandGrouper) :
  getInstructions (handleEOF g) = instructions g /\
  tokens (handleEOF g) = tokens g /\
  getWarning (handleEOF g)
  = match tokens g with [] => warning g | _ :: _ => "Unexpected end of stream" end.
Proof.
  unfold handleEOF, getInstructions, getWarning.
  destruct (tokens g) eqn:E; simpl; rewrite ?E; repeat split; reflexivity.
Qed.

Lemma handleObjects_plain (T : ObjectList) :
  forall g,
  whitelist g = ∅ ->
  parsing_inline_image g = false ->
  Forall (fun obj => isOperator obj = true -> getOperatorValue obj <> "BI") T ->
  exists g',
    handleObjects g T = Some g' /\
    whitelist g' = ∅ /\
    parsing_inline_image g' = false /\
    warning g' = warning g /\
    instructions g'
    = instructions g ++ map ItemInstruction (fst (group_from (tokens g) T)) /\
    tokens g' = snd (group_from (tokens g) T).
Proof.
  induction T as [|obj T IH]; intros g Hw Hp HT.
  - exists g. simpl. now rewrite app_nil_r.
  - inversion HT as [|? ? Hobj HT']; subst. simpl.
    destruct (isOperator obj) eqn:E.
    + destruct obj as [| | | | | | | |op|]; try discriminate E.
      rewrite handleObject_instruction;
        [| rewrite Hw; apply discarded_empty_whitelist | assumption | now apply Hobj].
      match goal with |- context [handleObjects ?g1 T] =>
        destruct (IH g1) as (g' & E1 & E2 & E3 & E4 & E5 & E6);
          [exact Hw | exact Hp | exact HT' |] end.
      exists g'. simpl in E5, E6.
      destruct (group_from [] T) as [instrs pending]. simpl in *.
      rewrite E5, <- app_assoc. repeat split; auto.
    + rewrite (handleObject_operand g obj E).
      match goal with |- context [handleObjects ?g1 T] =>
        destruct (IH g1) as (g' & E1 & E2 & E3 & E4 & E5 & E6);
          [exact Hw | exact Hp | exact HT' |] end.
      exists g'. repeat split; auto.
Qed.

Lemma no_inline_images_no_BI (T : ObjectList) :
  no_inline_images T ->
  Forall (fun obj => isOperator obj = true -> getOperatorValue obj <> "BI") T.
Proof.
  intros HT. eapply Forall_impl; [exact HT|].
  intros obj H Hop Hbi. apply (H Hop). now left.
Qed.

Lemma runs_no_inline_images (rs : list run) :
  Forall well_formed_run rs -> no_inline_images (runs_tokens rs).
Proof.
  induction rs as [|r rs IH]; intros H; [constructor|].
  inversion H as [|? ? (Hops & Hop & Hm) Hrs]; subst.
  unfold runs_tokens, no_inline_images. simpl.
  apply Forall_app. split; [|now apply IH].
  apply Forall_app. split.
  - eapply Forall_impl; [exact Hops|]. unfold is_operand. intros obj E E'. congruence.
  - constructor; [|constructor]. intros _. exact Hm.
Qed.

Lemma runs_operator_count (rs : list run) :
  Forall well_formed_run rs ->
  length (filter (fun obj => isOperator obj = true) (runs_tokens rs)) = length rs.
Proof.
  induction rs as [|r rs IH]; intros H; [reflexivity|].
  inversion H as [|? ? (Hops & Hop & _) Hrs]; subst.
  unfold runs_tokens in *. simpl. unfold run_tokens at 1.
  rewrite !filter_app, !length_app, (IH Hrs).
  assert (E : filter (fun obj => isOperator obj = true) (fst r) = []).
  { clear -Hops. induction Hops as [|obj ops Hobj _ IHops]; [reflexivity|].
    rewrite filter_cons_False; [exact IHops|]. unfold is_operand in Hobj. congruence. }
  rewrite E. rewrite filter_cons_True by exact Hop. reflexivity.
Qed.

(** ** Inside an inline image *)

Lemma handleObject_inline_mode (g g' : OperandGrouper) (obj : QPDFObjectHandle) :
  parsing_inline_image g = true ->
  handleObject g obj = Some g' ->
  parsing_inline_image g' = true /\
  exists new, instructions g' = instructions g ++ new /\
              Forall is_inline_image_item new.
Proof.
  intros Hp H. unfold handleObject in H.
  assert (Hnil : parsing_inline_image g = true /\
                 exists new, instructions g = instructions g ++ new /\
                             Forall is_inline_image_item new).
  { split; [exact Hp|]. exists []. now rewrite app_nil_r. }
  destruct (getTypeCode obj); simpl in H; try (injection H as <-; exact Hnil).
  destruct (discarded_by_whitelist _ _); [injection H as <-; exact Hnil|].
  destruct (bool_decide _).
  { injection H as <-. simpl. split; [reflexivity | apply Hnil]. }
  rewrite Hp in H.
  destruct (bool_decide _); [injection H as <-; exact Hnil|].
  destruct (bool_decide _); [|injection H as <-; exact Hnil].
  destruct (tokens g) as [|t0 rest]; [discriminate H|].
  injection H as <-. simpl. split; [exact Hp|].
  eexists. split; [reflexivity|]. repeat constructor.
Qed.

Lemma handleObjects_inline_mode (T : ObjectList) :
  forall g g',
  parsing_inline_image g = true ->
  handleObjects g T = Some g' ->
  parsing_inline_image g' = true /\
  exists new, instructions g' = instructions g ++ new /\
              Forall is_inline_image_item new.
Proof.
  induction T as [|obj T IH]; simpl; intros g g' Hp H.
  - injection H as <-. split; [exact Hp|]. exists []. now rewrite app_nil_r.
  - destruct (handleObject g obj) as [g1|] eqn:E; [|discriminate H].
    destruct (handleObject_inline_mode _ _ _ Hp E) as (Hp1 & new1 & E1 & F1).
    destruct (IH _ _ Hp1 H) as (Hp' & new2 & E2 & F2).
    split; [exact Hp'|]. exists (new1 ++ new2). split.
    + now rewrite E2, E1, <- app_assoc.
    + apply Forall_app. now split.
Qed.

Lemma handleObject_swallowed (g : OperandGrouper) (op : string) :
  parsing_inline_image g = true ->
  op <> "ID" -> op <> "EI" ->
  exists g',
    handleObject g (Operator op) = Some g' /\
    tokens g' = [] /\
    instructions g' = instructions g /\
    parsing_inline_image g' = true.
Proof.
  intros Hp Hid Hei. unfold handleObject. simpl.
  destruct (discarded_by_whitelist _ _); [eexists; repeat split; eauto|].
  destruct (bool_decide (op = "BI")); [eexists; repeat split; eauto|].
  rewrite Hp, !bool_decide_eq_false_2 by assumption.
  eexists; repeat split; eauto.
Qed.

Lemma handleObject_ID (g : OperandGrouper) :
  discarded_by_whitelist (whitelist g) "ID" = false ->
  parsing_inline_image g = true ->
  handleObject g (Operator "ID")
  = Some (set_tokens []
            (set_inline_metadata (tokens g) (set_count (uint_incr (count g)) g))).
Proof. intros Hw Hp. unfold handleObject. simpl. now rewrite Hw, Hp. Qed.

Lemma handleObject_EI (g : OperandGrouper) (t0 : QPDFObjectHandle) (rest : ObjectList) :
  discarded_by_whitelist (whitelist g) "EI" = false ->
  parsing_inline_image g = true ->
  tokens g = t0 :: rest ->
  handleObject g (Operator "EI")
  = Some (set_tokens []
            (set_inline_metadata []
               (append_instruction
                  (ItemInlineImage (mkContentStreamInlineImage (inline_metadata g) t0))
                  (set_count (uint_incr (count g)) g)))).
Proof. intros Hw Hp Ht. unfold handleObject. simpl. now rewrite Hw, Hp, Ht. Qed.

Lemma BI_not_discarded (w : gset string) :
  w = ∅ \/ "BI" ∈ w -> discarded_by_whitelist w "BI" = false.
Proof.
  intros [-> | H]; [apply discarded_empty_whitelist|].
  unfold discarded_by_whitelist. apply andb_false_iff. right.
  simpl. apply bool_decide_eq_false_2. intros Hn. now apply Hn.
Qed.

(** ** The claims about the grouper *)

(** C2.  A stream made of well-formed runs (operands, then an operator that
    is no inline-image marker), grouped without whitelist: the grouper ends
    with exactly one Instruction per operator token, in order, each holding
    the operands of its run, that is the operands read since the operator
    before; nothing is left pending and no warning is set. *)
Theorem grouper_one_instruction_per_run (rs : list run) :
  Forall well_formed_run rs ->
  exists g,
    parse_content_stream "" (runs_tokens rs) = Some g /\
    getInstructions g = map run_instruction rs /\
    length (getInstructions g)
    = length (filter (fun obj => isOperator obj = true) (runs_tokens rs)) /\
    tokens g = [] /\
    getWarning g = "".
Proof.
  intros H.
  destruct (handleObjects_plain (runs_tokens rs) (OperandGrouper_new ""))
    as (g & E1 & _ & _ & E4 & E5 & E6);
    [reflexivity | reflexivity
     | apply no_inline_images_no_BI, runs_no_inline_images, H |].
  simpl in E4, E5, E6. rewrite (group_from_runs rs H) in E5, E6. simpl in E5, E6.
  exists g. unfold parse_content_stream. rewrite E1. simpl.
  unfold handleEOF. rewrite E6. unfold getInstructions, getWarning.
  rewrite E5, E4, (runs_operator_count rs H), !length_map, map_map.
  repeat split; reflexivity.
Qed.

(** C3, as the code has it.  For operands [m1], [m2], [d1] and [payload], the
    stream [m1 m2 BI d1 ID payload EI], grouped without whitelist, gives
    exactly one InlineImageInstruction; its metadata is [[d1]], the tokens
    between BI and ID, and its image data is [payload]; [m1] and [m2], read
    before BI, are dropped when BI clears the buffer. *)
Theorem inline_image_metadata_between_BI_and_ID
    (m1 m2 d1 payload : QPDFObjectHandle) :
  is_operand m1 -> is_operand m2 -> is_operand d1 -> is_operand payload ->
  exists g,
    parse_content_stream ""
      [m1; m2; Operator "BI"; d1; Operator "ID"; payload; Operator "EI"] = Some g /\
    getInstructions g
    = [ItemInlineImage (mkContentStreamInlineImage [d1] payload)] /\
    getWarning g = "".
Proof.
  intros H1 H2 H3 H4. unfold parse_content_stream.
  cbn [handleObjects].
  rewrite (handleObject_operand _ m1 H1).
  rewrite (handleObject_operand _ m2 H2).
  rewrite handleObject_BI by reflexivity.
  rewrite (handleObject_operand _ d1 H3).
  rewrite handleObject_ID by reflexivity.
  rewrite (handleObject_operand _ payload H4).
  erewrite handleObject_EI by reflexivity.
  eexists. repeat split; reflexivity.
Qed.

(** C4.  Once a BI operator has gone through (the whitelist is empty or
    holds BI), whatever tokens follow: the flag [parsing_inline_image] is
    still set, every instruction appended since is an inline-image
    instruction, and the next operator other than ID and EI is swallowed:
    the buffer is cleared, nothing is appended, the flag stays. *)
Theorem inline_image_mode_never_left
    (g0 g g' : OperandGrouper) (T : ObjectList) :
  whitelist g0 = ∅ \/ "BI" ∈ whitelist g0 ->
  handleObject g0 (Operator "BI") = Some g ->
  handleObjects g T = Some g' ->
  parsing_inline_image g = true /\
  parsing_inline_image g' = true /\
  (exists new, instructions g' = instructions g0 ++ new /\
               Forall is_inline_image_item new) /\
  (forall op, op <> "ID" -> op <> "EI" ->
     exists g'',
       handleObject g' (Operator op) = Some g'' /\
       tokens g'' = [] /\
       instructions g'' = instructions g' /\
       parsing_inline_image g'' = true).
Proof.
  intros Hw Hbi HT.
  rewrite handleObject_BI in Hbi by now apply BI_not_discarded.
  injection Hbi as <-.
  match type of HT with handleObjects ?g1 T = _ =>
    destruct (handleObjects_inline_mode T g1 g' eq_refl HT) as (Hp & new & E & F) end.
  simpl in E. split; [reflexivity|]. split; [exact Hp|]. split.
  - exists new. now split.
  - intros op Hid Hei. now apply handleObject_swallowed.
Qed.

(** C5.  With a non-empty whitelist: an operator whose name is not in the
    whitelist (and, when the name starts with q or Q, with neither "q" nor
    "Q" in the whitelist) appends no instruction and clears the pending
    operands; an operator whose name starts with q or Q is kept as soon as
    "q" or "Q" is in the whitelist: the step is the one of a grouper without
    whitelist, and outside an inline image it appends the instruction. *)
Theorem whitelist_filter (g : OperandGrouper) (op : string) :
  whitelist g <> ∅ ->
  (op ∉ whitelist g ->
   (first_char op = "q"%char \/ first_char op = "Q"%char ->
    ("q" ∉ whitelist g) /\ ("Q" ∉ whitelist g)) ->
   exists g',
     handleObject g (Operator op) = Some g' /\
     instructions g' = instructions g /\
     tokens g' = []) /\
  (first_char op = "q"%char \/ first_char op = "Q"%char ->
   "q" ∈ whitelist g \/ "Q" ∈ whitelist g ->
   handleObject g (Operator op)
   = option_map (set_whitelist (whitelist g))
       (handleObject (set_whitelist ∅ g) (Operator op)) /\
   (parsing_inline_image g = false ->
    exists g',
      handleObject g (Operator op) = Some g' /\
      instructions g'
      = instructions g
        ++ [ItemInstruction (mkContentStreamInstruction (tokens g) (Operator op))] /\
      tokens g' = [])).
Proof.
  intros Hne. split.
  - intros Hop Hq.
    rewrite handleObject_discarded; [eexists; repeat split; reflexivity|].
    unfold discarded_by_whitelist.
    rewrite (bool_decide_eq_true_2 _ Hne). simpl.
    destruct (bool_decide (first_char op = "q"%char)) eqn:E1;
      [| destruct (bool_decide (first_char op = "Q"%char)) eqn:E2]; simpl.
    + apply bool_decide_eq_true_1 in E1. destruct Hq as [Hq1 Hq2]; [now left|].
      now rewrite !bool_decide_eq_true_2.
    + apply bool_decide_eq_true_1 in E2. destruct Hq as [Hq1 Hq2]; [now right|].
      now rewrite !bool_decide_eq_true_2.
    + now apply bool_decide_eq_true_2.
  - intros Hq Hin.
    assert (Hk : discarded_by_whitelist (whitelist g) op = false).
    { unfold discarded_by_whitelist. apply andb_false_iff. right.
      assert (E : bool_decide (first_char op = "q"%char)
                  || bool_decide (first_char op = "Q"%char) = true).
      { apply orb_true_iff.
        destruct Hq as [Hq | Hq]; [left | right]; now apply bool_decide_eq_true_2. }
      rewrite E. apply andb_false_iff.
      destruct Hin as [Hin | Hin]; [left | right];
        apply bool_decide_eq_false_2; intros Hn; now apply Hn. }
    assert (Hbi : op <> "BI").
    { intros ->. destruct Hq as [Hq | Hq]; discriminate Hq. }
    split.
    + unfold handleObject. simpl. rewrite Hk, discarded_empty_whitelist.
      rewrite (bool_decide_eq_false_2 _ Hbi).
      destruct (parsing_inline_image g); [|reflexivity].
      destruct (bool_decide (op = "ID")); [reflexivity|].
      destruct (bool_decide (op = "EI")); [|reflexivity].
      destruct (tokens g); reflexivity.
    + intros Hp. rewrite handleObject_instruction by assumption.
      eexists. repeat split; reflexivity.
Qed.

(** C6.  For a grouper that has been fed any tokens since its construction,
    [handleEOF] leaves the warning equal to "Unexpected end of stream"
    exactly when operands are pending, and does not touch the instructions;
    [handleEOF] is a total function, it raises nothing. *)
Theorem end_of_stream_warning
    (operators : string) (T : ObjectList) (g : OperandGrouper) :
  handleObjects (OperandGrouper_new operators) T = Some g ->
  (getWarning (handleEOF g) = "Unexpected end of stream" <-> tokens g <> []) /\
  (tokens g = [] -> getWarning (handleEOF g) = "") /\
  getInstructions (handleEOF g) = getInstructions g.
Proof.
  intros H. destruct (handleObjects_warning T _ _ H) as [Hw _]. simpl in Hw.
  unfold handleEOF, getWarning, getInstructions.
  destruct (tokens g) as [|t rest]; simpl.
  - rewrite Hw. repeat split; try easy.
  - repeat split; try easy.
Qed.

(** ** Joining with a separator *)

Lemma concat_delimited (b : string) (bs : list string) :
  String.concat newline (b :: bs) = b +:+ delimited newline bs.
Proof.
  revert b. induction bs as [|b' bs IH]; intros b.
  - simpl. now rewrite append_nil_r.
  - change (String.concat newline (b :: b' :: bs))
      with (b +:+ newline +:+ String.concat newline (b' :: bs)).
    now rewrite IH.
Qed.

Lemma delimited_empty_delim (bs : list string) :
  delimited "" bs = String.concat newline bs.
Proof.
  destruct bs as [|b bs]; [reflexivity|].
  now rewrite concat_delimited.
Qed.

Lemma uint_incr_n_after (n : Z) (k : nat) :
  (uint_incr n + Z.of_nat k) mod uint_modulus
  = (n + Z.of_nat (S k)) mod uint_modulus.
Proof.
  unfold uint_incr. rewrite Zplus_mod_idemp_l. f_equal. lia.
Qed.

(** ** The serializer *)

Section Serializer.
Context {sv : Services}.

Lemma write_operands_fold (ops : ObjectList) :
  forall os,
  fold_left (fun os obj => (os +:+ unparseBinary obj) +:+ " ") ops os
  = os +:+ fold_left (fun os obj => (os +:+ unparseBinary obj) +:+ " ") ops "".
Proof.
  induction ops as [|obj ops IH]; intros os; simpl.
  - now rewrite append_nil_r.
  - rewrite IH. rewrite (IH (("" +:+ _) +:+ _)).
    now rewrite append_nil_l, !append_assoc.
Qed.

Lemma write_instruction_frame (os : string) (csi : ContentStreamInstruction) :
  write_instruction os csi = os +:+ write_instruction "" csi.
Proof.
  unfold write_instruction. rewrite write_operands_fold.
  now rewrite append_assoc.
Qed.

Lemma write_instruction_cons
    (obj : QPDFObjectHandle) (ops : ObjectList) (op : QPDFObjectHandle) :
  write_instruction "" (mkContentStreamInstruction (obj :: ops) op)
  = unparseBinary obj +:+ " "
    +:+ write_instruction "" (mkContentStreamInstruction ops op).
Proof.
  unfold write_instruction. simpl.
  rewrite write_operands_fold.
  now rewrite append_nil_l, !append_assoc.
Qed.

Lemma write_instruction_concat (csi : ContentStreamInstruction) :
  write_instruction "" csi
  = String.concat " " (map unparseBinary (operands csi ++ [operator_ csi])).
Proof.
  destruct csi as [ops op]. simpl.
  induction ops as [|obj ops IH]; [reflexivity|].
  rewrite write_instruction_cons, IH. simpl.
  now destruct (map unparseBinary (ops ++ [op])) eqn:E;
    [destruct ops; discriminate E|].
Qed.

Lemma write_inline_image_frame (os : string) (csii : ContentStreamInlineImage) :
  write_inline_image os csii
  = try! b <- write_inline_image "" csii; Ok (os +:+ b).
Proof.
  unfold write_inline_image.
  destruct (get_inline_image csii) as [iimage|e]; [|reflexivity]. simpl.
  destruct (PdfInlineImage_unparse iimage); reflexivity.
Qed.

Lemma write_operands_frame (operands : list PyObject) :
  forall ss,
  write_operands ss operands
  = try! b <- write_operands "" operands; Ok (ss +:+ b).
Proof.
  induction operands as [|operand rest IH]; intros ss; simpl.
  - now rewrite append_nil_r.
  - destruct (objecthandle_encode operand) as [obj|e]; [|reflexivity]. simpl.
    rewrite IH. rewrite (IH (("" +:+ _) +:+ _)).
    destruct (write_operands "" rest) as [b|e]; [|reflexivity]. simpl.
    now rewrite append_nil_l, !append_assoc.
Qed.

Lemma unparse_fallback_frame (n : Z) (ss : string) (operands_op : list PyObject) :
  unparse_fallback n ss operands_op
  = try! b <- unparse_fallback n "" operands_op; Ok (ss +:+ b).
Proof.
  unfold unparse_fallback.
  destruct operands_op as [|operands0 [|operator_ [|x l]]]; try reflexivity.
  destruct (fallback_operator n operator_) as [op|e]; [|reflexivity]. simpl.
  destruct (bool_decide _).
  - destruct (sequence_items operands0) as [[|iimage l]|e]; try reflexivity. simpl.
    destruct iimage; try reflexivity.
    destruct (PdfInlineImage_unparse _); reflexivity.
  - destruct (sequence_items operands0) as [l|e]; [|reflexivity]. simpl.
    rewrite write_operands_frame.
    destruct (write_operands "" l) as [b|e]; [|reflexivity]. simpl.
    now rewrite append_assoc.
Qed.


(** One turn of the loop: the delimiter, then the bytes of the item. *)
Lemma unparse_loop_cons
    (n : Z) (delim ss : string) (item : PyItem) (rest : list PyItem) :
  unparse_loop n delim ss (item :: rest)
  = try! b <- item_bytes n item;
    unparse_loop (next_n n item) newline (ss +:+ delim +:+ b) rest.
Proof.
  simpl. destruct item as [csi|csii|operands_op]; simpl.
  - now rewrite write_instruction_frame, append_assoc.
  - rewrite write_inline_image_frame.
    destruct (write_inline_image "" csii) as [b|e]; [|reflexivity]. simpl.
    now rewrite append_assoc.
  - rewrite unparse_fallback_frame.
    destruct (unparse_fallback n "" operands_op) as [b|e]; [|reflexivity]. simpl.
    now rewrite append_assoc.
Qed.

Lemma unparse_loop_spec (contentstream : list PyItem) :
  forall n delim ss,
  unparse_loop n delim ss contentstream
  = try! bs <- items_bytes n contentstream; Ok (ss +:+ delimited delim bs).
Proof.
  induction contentstream as [|item rest IH]; intros n delim ss.
  - simpl. now rewrite append_nil_r.
  - rewrite unparse_loop_cons. cbn [items_bytes].
    destruct (item_bytes n item) as [b|e]; [|reflexivity]. simpl.
    rewrite IH.
    destruct (items_bytes (next_n n item) rest) as [bs|e]; [|reflexivity]. simpl.
    now rewrite !append_assoc.
Qed.

Lemma unparse_loop_app (pre : list PyItem) :
  forall n delim ss post,
  0 <= n < uint_modulus ->
  unparse_loop n delim ss (pre ++ post)
  = try! ss' <- unparse_loop n delim ss pre;
    unparse_loop (n_after n pre)
      (match pre with [] => delim | _ :: _ => newline end) ss' post.
Proof.
  induction pre as [|item pre IH]; intros n delim ss post Hn.
  - simpl. unfold n_after. simpl. now rewrite Z.add_0_r, Z.mod_small.
  - rewrite <- app_comm_cons, !unparse_loop_cons.
    destruct (item_bytes n item) as [b|e]; [|reflexivity]. simpl.
    assert (Hn' : 0 <= next_n n item < uint_modulus).
    { destruct item; simpl; try exact Hn. now apply Z.mod_pos_bound. }
    rewrite (IH _ _ _ post Hn').
    destruct (unparse_loop (next_n n item) newline _ pre) as [ss'|e];
      [|reflexivity]. simpl.
    replace (n_after (next_n n item) pre) with (n_after n (item :: pre)).
    + now destruct pre.
    + unfold n_after. destruct item; simpl fallback_count; simpl next_n;
        try reflexivity.
      now rewrite uint_incr_n_after.
Qed.

Lemma items_bytes_instructions (n : Z) (cs : list ContentStreamInstruction) :
  items_bytes n (map ItemInstruction cs) = Ok (map (write_instruction "") cs).
Proof.
  induction cs as [|csi cs IH]; [reflexivity|].
  simpl. now rewrite IH.
Qed.

Lemma write_operands_encoded (operands : list PyObject) (objs : ObjectList) :
  encoded_as operands objs ->
  forall ss,
  write_operands ss operands
  = Ok (fold_left (fun os obj => (os +:+ unparseBinary obj) +:+ " ") objs ss).
Proof.
  induction 1 as [|operand obj operands objs E _ IH]; intros ss; [reflexivity|].
  simpl. rewrite E. simpl. apply IH.
Qed.

(** *** Rendering a grouped stream *)

Lemma render_tokens_cons (obj : QPDFObjectHandle) (T : ObjectList) :
  T <> [] ->
  render_tokens (obj :: T)
  = unparseBinary obj +:+ (if isOperator obj then newline else " ")
    +:+ render_tokens T.
Proof. destruct T; [congruence | reflexivity]. Qed.

Lemma render_tokens_run (buf : ObjectList) (obj : QPDFObjectHandle) (T : ObjectList) :
  Forall is_operand buf ->
  isOperator obj = true ->
  render_tokens (buf ++ obj :: T)
  = write_instruction "" (mkContentStreamInstruction buf obj)
    +:+ match T with [] => "" | _ :: _ => newline +:+ render_tokens T end.
Proof.
  intros Hbuf Hop. induction Hbuf as [|b buf Hb _ IH].
  - simpl. rewrite Hop. destruct T; [now rewrite append_nil_r | reflexivity].
  - rewrite write_instruction_cons, <- app_comm_cons.
    rewrite render_tokens_cons by now destruct buf.
    rewrite Hb, IH. now rewrite !append_assoc.
Qed.

Lemma operands_end (buf : ObjectList) :
  Forall is_operand buf -> ends_with_operator buf -> buf = [].
Proof.
  intros Hbuf. unfold ends_with_operator.
  destruct buf as [|b buf] using rev_ind; [reflexivity|].
  rewrite last_snoc. apply Forall_app in Hbuf as [_ Hb].
  inversion Hb as [|? ? Hb' _]; subst. unfold is_operand in Hb'. congruence.
Qed.

Lemma render_group (T : ObjectList) :
  forall buf delim,
  Forall is_operand buf ->
  ends_with_operator (buf ++ T) ->
  delimited delim (map (write_instruction "") (fst (group_from buf T)))
  = match buf ++ T with
    | [] => ""
    | _ :: _ => delim +:+ render_tokens (buf ++ T)
    end.
Proof.
  induction T as [|obj T IH]; intros buf delim Hbuf Hend.
  - rewrite app_nil_r in *. now rewrite (operands_end buf Hbuf Hend).
  - simpl. destruct (isOperator obj) eqn:E.
    + assert (HT : ends_with_operator ([] ++ T)).
      { simpl. unfold ends_with_operator in *.
        rewrite last_app_cons in Hend. now destruct T. }
      specialize (IH [] newline (List.Forall_nil _) HT). simpl in IH.
      destruct (group_from [] T) as [instrs pending]. simpl in *.
      rewrite IH, render_tokens_run by assumption.
      destruct (buf ++ obj :: T) eqn:E'; [now destruct buf|].
      now destruct T.
    + assert (Hbuf' : Forall is_operand (buf ++ [obj])).
      { apply Forall_app. split; [exact Hbuf | now constructor]. }
      specialize (IH (buf ++ [obj]) delim Hbuf').
      rewrite <- app_assoc in IH. simpl in IH. now apply IH.
Qed.

(** *** The claims about the serializer *)

(** C1, as the code has it.  A stream without BI, ID or EI operator is
    grouped without whitelist and the instructions are serialized: the
    bytes are the whitespace-normalised rendering of the stream up to its
    last operator (one space after an operand, one newline after an
    operator, nothing at the end).  Operands that follow the last operator
    are in no instruction and are not rendered, and the grouper sets the
    warning "Unexpected end of stream" for them; for a stream that is
    empty or ends with an operator ([rest = []]) the bytes render the
    whole stream and no warning is set. *)
Theorem unparse_after_grouping_renders_stream (T rest : ObjectList) :
  no_inline_images (T ++ rest) ->
  ends_with_operator T ->
  Forall is_operand rest ->
  exists g,
    parse_content_stream "" (T ++ rest) = Some g /\
    unparse_content_stream (getInstructions g) = Ok (render_tokens T) /\
    (rest <> [] -> getWarning g = "Unexpected end of stream") /\
    (rest = [] -> getWarning g = "").
Proof.
  intros Hno Hend Hrest.
  destruct (handleObjects_plain (T ++ rest) (OperandGrouper_new ""))
    as (g & E1 & _ & _ & E4 & E5 & E6);
    [reflexivity | reflexivity | now apply no_inline_images_no_BI |].
  simpl in E4, E5, E6. rewrite group_from_app in E5, E6. simpl in E5, E6.
  rewrite (group_from_pending T [] Hend (fun _ => eq_refl)) in E5, E6.
  pose proof (group_from_operands rest [] [] Hrest) as Er.
  rewrite app_nil_r in Er. simpl in Er. rewrite Er in E5, E6.
  simpl in E5, E6. rewrite app_nil_r in E5.
  exists (handleEOF g). unfold parse_content_stream. rewrite E1.
  destruct (handleEOF_fields g) as (Ei & _ & Ew).
  split; [reflexivity|]. split; [|split].
  - rewrite Ei, E5. unfold unparse_content_stream.
    rewrite unparse_loop_spec, items_bytes_instructions. simpl.
    rewrite (render_group T [] "") by (simpl; auto). simpl.
    now destruct T.
  - intros Hne. rewrite Ew, E6. now destruct rest.
  - intros ->. now rewrite Ew, E6, E4.
Qed.

(** C8.  A native Instruction is written as the bytes of its operands and
    of its operator, joined by single spaces: a space after each operand,
    nothing after the operator.  [unparse_content_stream] gives the bytes
    of the items joined by single newlines, so no newline comes first or
    last; on Instructions this is the join of their renderings, and the
    empty iterable gives the empty buffer. *)
Theorem unparse_joins_with_newlines :
  (forall os csi,
     write_instruction os csi
     = os +:+ String.concat " "
                (map unparseBinary (operands csi ++ [operator_ csi]))) /\
  (forall contentstream,
     unparse_content_stream contentstream
     = try! bs <- items_bytes 0 contentstream; Ok (String.concat newline bs)) /\
  (forall cs,
     unparse_content_stream (map ItemInstruction cs)
     = Ok (String.concat newline
             (map (fun csi => String.concat " "
                     (map unparseBinary (operands csi ++ [operator_ csi]))) cs))) /\
  unparse_content_stream [] = Ok "".
Proof.
  assert (Hjoin : forall contentstream,
    unparse_content_stream contentstream
    = try! bs <- items_bytes 0 contentstream; Ok (String.concat newline bs)).
  { intros contentstream. unfold unparse_content_stream.
    rewrite unparse_loop_spec.
    destruct (items_bytes 0 contentstream) as [bs|e]; [|reflexivity]. simpl.
    now rewrite delimited_empty_delim. }
  repeat split.
  - intros os csi. now rewrite write_instruction_frame, write_instruction_concat.
  - exact Hjoin.
  - intros cs. rewrite Hjoin, items_bytes_instructions. simpl.
    do 2 f_equal. apply map_ext. intros csi. apply write_instruction_concat.
Qed.


(** C10, as the code has it.  The second element of a pair, in the
    fallback: a [str] or a [bytes] gives the operator built from its text
    (up to a NUL, as [c_str] reads it); any other value is cast to a typed
    object, which is taken when it is an operator and otherwise raises the
    type error "At content stream instruction N, the operator is not of
    type pikepdf.Operator, bytes or str"; when the cast itself raises, for
    a value that is no typed object, the call ends with the exception of
    the cast and not with the type error.  With a text or bytes operator
    other than INLINE IMAGE and operands that the encoder accepts, the pair
    is serialized: the bytes of the encoded operands, a space after each,
    then the bytes of the operator built.  The last part says the two
    failures for the whole call, after items that have been serialized. *)
Theorem fallback_operator_coercion
    (n : Z) (s : string) (pyoperands : list PyObject) (objs : ObjectList) :
  fallback_operator n (PyStr s) = Ok (newOperator (c_str s)) /\
  fallback_operator n (PyBytes s) = Ok (newOperator (c_str s)) /\
  (forall o,
     (forall s', o <> PyStr s') -> (forall s', o <> PyBytes s') ->
     (forall h, cast_QPDFObjectHandle o = Ok h ->
        fallback_operator n o
        = if isOperator h then Ok h
          else Raise (type_error
                 ("At content stream instruction " +:+ pretty n +:+
                  ", the operator is not of type pikepdf.Operator, bytes or str"))) /\
     (forall e, cast_QPDFObjectHandle o = Raise e ->
        fallback_operator n o = Raise e)) /\
  (c_str s <> "INLINE IMAGE" ->
   encoded_as pyoperands objs ->
   forall operator_, operator_ = PyStr s \/ operator_ = PyBytes s ->
   unparse_content_stream [ItemSequence [PySequence pyoperands; operator_]]
   = Ok (String.concat " "
           (map unparseBinary (objs ++ [newOperator (c_str s)])))) /\
  (forall pre post out operands0 o,
     unparse_content_stream pre = Ok out ->
     Z.of_nat (fallback_count pre) < uint_modulus ->
     (forall s', o <> PyStr s') -> (forall s', o <> PyBytes s') ->
     (forall h, cast_QPDFObjectHandle o = Ok h -> isOperator h = false ->
        unparse_content_stream (pre ++ ItemSequence [operands0; o] :: post)
        = Raise (type_error
            ("At content stream instruction "
             +:+ pretty (Z.of_nat (fallback_count pre)) +:+
             ", the operator is not of type pikepdf.Operator, bytes or str"))) /\
     (forall e, cast_QPDFObjectHandle o = Raise e ->
        unparse_content_stream (pre ++ ItemSequence [operands0; o] :: post)
        = Raise e)).
Proof.
  assert (Hgen : forall n' o,
    (forall s', o <> PyStr s') -> (forall s', o <> PyBytes s') ->
    fallback_operator n' o
    = try! op <- cast_QPDFObjectHandle o;
      if isOperator op then Ok op
      else Raise (type_error
             ("At content stream instruction " +:+ pretty n' +:+
              ", the operator is not of type pikepdf.Operator, bytes or str"))).
  { intros n' o Hstr Hbytes. destruct o; try reflexivity.
    - now contradiction (Hstr s0).
    - now contradiction (Hbytes s0). }
  split; [reflexivity|]. split; [reflexivity|]. split; [|split].
  - intros o Hstr Hbytes. split.
    + intros h Hcast. now rewrite Hgen, Hcast.
    + intros e Hcast. now rewrite Hgen, Hcast.
  - intros Hop Henc operator_ Hor.
    assert (E : fallback_operator 0 operator_ = Ok (newOperator (c_str s)))
      by (destruct Hor as [-> | ->]; reflexivity).
    unfold unparse_content_stream. cbn [unparse_loop unparse_fallback].
    rewrite E. simpl bind.
    rewrite bool_decide_eq_false_2 by exact Hop.
    simpl sequence_items. simpl bind.
    rewrite (write_operands_encoded pyoperands objs Henc). simpl bind.
    pose proof (write_instruction_concat
                  (mkContentStreamInstruction objs (newOperator (c_str s)))) as W.
    simpl in W. rewrite <- W. reflexivity.
  - intros pre post out operands0 o Hpre Hn Hstr Hbytes.
    assert (Hcall : forall r,
              fallback_operator (Z.of_nat (fallback_count pre)) o = Raise r ->
              unparse_content_stream (pre ++ ItemSequence [operands0; o] :: post)
              = Raise r).
    { intros r Hr. unfold unparse_content_stream in *.
      rewrite unparse_loop_app by (unfold uint_modulus; lia).
      rewrite Hpre. cbn [bind]. rewrite unparse_loop_cons.
      unfold n_after. rewrite Z.add_0_l, Z.mod_small by lia.
      cbn [item_bytes unparse_fallback]. now rewrite Hr. }
    split.
    + intros h Hcast Hnop. apply Hcall.
      rewrite Hgen by assumption. rewrite Hcast. simpl. now rewrite Hnop.
    + intros e Hcast. apply Hcall.
      rewrite Hgen by assumption. now rewrite Hcast.
Qed.

(** C7.  For an Instruction and for an InlineImageInstruction: index 0 and
    index -2 give what [operands] gives, index 1 and index -1 give what
    [operator] gives, the length is 2 whatever the operands are, and any
    other index raises the index error "Invalid index <index>". *)
Theorem getitem_as_pair
    (csi : ContentStreamInstruction) (csii : ContentStreamInlineImage) :
  (csi_getitem csi 0 = Ok (csi_operands csi) /\
   csi_getitem csi (-2) = Ok (csi_operands csi) /\
   csi_getitem csi 1 = Ok (csi_operator csi) /\
   csi_getitem csi (-1) = Ok (csi_operator csi) /\
   csi_len csi = 2 /\
   forall index, index <> 0 -> index <> 1 -> index <> -1 -> index <> -2 ->
     csi_getitem csi index
     = Raise (index_error ("Invalid index " +:+ pretty index))) /\
  (csii_getitem csii 0 = csii_operands csii /\
   csii_getitem csii (-2) = csii_operands csii /\
   csii_getitem csii 1 = csii_operator csii /\
   csii_getitem csii (-1) = csii_operator csii /\
   csii_len csii = 2 /\
   forall index, index <> 0 -> index <> 1 -> index <> -1 -> index <> -2 ->
     csii_getitem csii index
     = Raise (index_error ("Invalid index " +:+ pretty index))).
Proof.
  assert (Hother : forall index,
    index <> 0 -> index <> 1 -> index <> -1 -> index <> -2 ->
    (((index =? 0) || (index =? -2))%Z = false) /\
    (((index =? 1) || (index =? -1))%Z = false)).
  { intros index H0 H1 H2 H3. split; apply orb_false_iff; split;
      apply Z.eqb_neq; assumption. }
  split; repeat split; try reflexivity.
  - intros index H0 H1 H2 H3. unfold csi_getitem.
    destruct (Hother index H0 H1 H2 H3) as [-> ->]. reflexivity.
  - intros index H0 H1 H2 H3. unfold csii_getitem.
    destruct (Hother index H0 H1 H2 H3) as [-> ->]. reflexivity.
Qed.

End Serializer.

(** * The theorems on concrete streams

    Evaluations with [plain_services]: each statement gives the hypotheses of
    a theorem above at a concrete input, then its conclusion there. *)

(** [1 0 cm q 5]: the rendering stops at [q]. *)
Lemma unparse_after_grouping_renders_stream_witness :
  let T := [Integer 1; Integer 0; Operator "cm"; Operator "q"] in
  let rest := [Integer 5] in
  no_inline_images (T ++ rest) /\
  ends_with_operator T /\
  Forall is_operand rest /\
  exists g,
    parse_content_stream "" (T ++ rest) = Some g /\
    unparse_content_stream (sv := plain_services) (getInstructions g)
    = Ok (render_tokens (sv := plain_services) T) /\
    (rest <> [] -> getWarning g = "Unexpected end of stream") /\
    (rest = [] -> getWarning g = "").
Proof.
  intros T rest.
  assert (H1 : no_inline_images (T ++ rest)) by (unfold no_inline_images; simpl; no_markers).
  assert (H2 : ends_with_operator T) by reflexivity.
  assert (H3 : Forall is_operand rest) by operands_only.
  split; [exact H1|]. split; [exact H2|]. split; [exact H3|].
  exact (@unparse_after_grouping_renders_stream plain_services T rest H1 H2 H3).
Defined.

(** C1 as stated fails on [1 2]: no operator, so no instruction, and the
    serializer gives the empty buffer where the stream renders as "1 2". *)
Lemma unparse_after_grouping_drops_trailing_operands :
  let T := [Integer 1; Integer 2] in
  no_inline_images T /\
  exists g,
    parse_content_stream "" T = Some g /\
    getInstructions g = [] /\
    getWarning g = "Unexpected end of stream" /\
    unparse_content_stream (sv := plain_services) (getInstructions g) = Ok "" /\
    render_tokens (sv := plain_services) T = "1 2" /\
    unparse_content_stream (sv := plain_services) (getInstructions g)
    <> Ok (render_tokens (sv := plain_services) T).
Proof.
  intros T. split; [unfold no_inline_images; simpl; no_markers|].
  eexists. split; [vm_compute; reflexivity|].
  repeat split; try (vm_compute; reflexivity).
  vm_compute. discriminate.
Qed.

(** [1 0 cm q]: two runs, two instructions. *)
Lemma grouper_one_instruction_per_run_witness :
  let rs := [([Integer 1; Integer 0], Operator "cm"); ([], Operator "q")] in
  Forall well_formed_run rs /\
  exists g,
    parse_content_stream "" (runs_tokens rs) = Some g /\
    getInstructions g = map run_instruction rs /\
    length (getInstructions g)
    = length (filter (fun obj => isOperator obj = true) (runs_tokens rs)) /\
    tokens g = [] /\
    getWarning g = "".
Proof.
  intros rs.
  assert (H : Forall well_formed_run rs).
  { repeat (apply List.Forall_cons;
            [ split; [operands_only | split; [reflexivity|]];
              intros [H' | [H' | H']]; discriminate H' |]).
    apply List.Forall_nil. }
  split; [exact H|].
  exact (grouper_one_instruction_per_run rs H).
Defined.

(** [/W 1 BI /Filter ID <data> EI] *)
Lemma inline_image_metadata_between_BI_and_ID_witness :
  let m1 := Name "/W" in
  let m2 := Integer 1 in
  let d1 := Name "/Filter" in
  let payload := InlineImage "data" in
  is_operand m1 /\ is_operand m2 /\ is_operand d1 /\ is_operand payload /\
  exists g,
    parse_content_stream ""
      [m1; m2; Operator "BI"; d1; Operator "ID"; payload; Operator "EI"] = Some g /\
    getInstructions g
    = [ItemInlineImage (mkContentStreamInlineImage [d1] payload)] /\
    getWarning g = "".
Proof.
  intros m1 m2 d1 payload.
  split; [reflexivity|]. split; [reflexivity|].
  split; [reflexivity|]. split; [reflexivity|].
  exact (inline_image_metadata_between_BI_and_ID m1 m2 d1 payload
           eq_refl eq_refl eq_refl eq_refl).
Defined.

(** C3 as stated fails on the same stream: the metadata of the one
    instruction is [/Filter], not [/W 1]. *)
Lemma inline_image_metadata_is_not_before_BI :
  let m1 := Name "/W" in
  let m2 := Integer 1 in
  let d1 := Name "/Filter" in
  let payload := InlineImage "data" in
  exists g,
    parse_content_stream ""
      [m1; m2; Operator "BI"; d1; Operator "ID"; payload; Operator "EI"] = Some g /\
    getInstructions g
    = [ItemInlineImage (mkContentStreamInlineImage [d1] payload)] /\
    getInstructions g
    <> [ItemInlineImage (mkContentStreamInlineImage [m1; m2] payload)].
Proof.
  intros m1 m2 d1 payload.
  eexists. split; [vm_compute; reflexivity|].
  split; [reflexivity|]. vm_compute. discriminate.
Qed.

(** [BI /F ID <data> EI 1 Tj 2 0 m]: after EI, [Tj] gives no instruction. *)
Lemma inline_image_mode_never_left_witness :
  let g0 := OperandGrouper_new "" in
  let T := [Name "/F"; Operator "ID"; InlineImage "data"; Operator "EI";
            Integer 1; Operator "Tj"; Integer 2; Integer 0] in
  (whitelist g0 = ∅ \/ "BI" ∈ whitelist g0) /\
  exists g g',
    handleObject g0 (Operator "BI") = Some g /\
    handleObjects g T = Some g' /\
    parsing_inline_image g = true /\
    parsing_inline_image g' = true /\
    (exists new, instructions g' = instructions g0 ++ new /\
                 Forall is_inline_image_item new) /\
    (forall op, op <> "ID" -> op <> "EI" ->
       exists g'',
         handleObject g' (Operator op) = Some g'' /\
         tokens g'' = [] /\
         instructions g'' = instructions g' /\
         parsing_inline_image g'' = true).
Proof.
  intros g0 T.
  assert (H1 : whitelist g0 = ∅ \/ "BI" ∈ whitelist g0) by (left; reflexivity).
  split; [exact H1|].
  destruct (handleObject g0 (Operator "BI")) as [g|] eqn:E1;
    [|vm_compute in E1; discriminate E1].
  destruct (handleObjects g T) as [g'|] eqn:E2.
  - exists g, g'. split; [reflexivity|]. split; [exact E2|].
    exact (inline_image_mode_never_left g0 g g' T H1 E1 E2).
  - vm_compute in E1. injection E1 as <-. vm_compute in E2. discriminate E2.
Defined.

(** Whitelist [q Tj]: [1 re] is thrown away; whitelist [Q Tj]: [1 q1] is
    kept, through "Q". *)
Lemma whitelist_filter_witness :
  let g1 := set_tokens [Integer 1] (OperandGrouper_new "q Tj") in
  let g2 := set_tokens [Integer 1] (OperandGrouper_new "Q Tj") in
  (whitelist g1 <> ∅ /\ ("re" ∉ whitelist g1) /\
   exists g',
     handleObject g1 (Operator "re") = Some g' /\
     instructions g' = instructions g1 /\
     tokens g' = []) /\
  (whitelist g2 <> ∅ /\
   (first_char "q1" = "q"%char \/ first_char "q1" = "Q"%char) /\
   ("q" ∈ whitelist g2 \/ "Q" ∈ whitelist g2) /\
   exists g',
     handleObject g2 (Operator "q1") = Some g' /\
     instructions g'
     = instructions g2
       ++ [ItemInstruction (mkContentStreamInstruction (tokens g2) (Operator "q1"))] /\
     tokens g' = []).
Proof.
  intros g1 g2.
  assert (H1 : whitelist g1 <> ∅)
    by (apply (bool_decide_eq_true_1 (whitelist g1 <> ∅)); vm_compute; reflexivity).
  assert (H2 : "re" ∉ whitelist g1)
    by (apply (bool_decide_eq_true_1 ("re" ∉ whitelist g1)); vm_compute; reflexivity).
  assert (H3 : whitelist g2 <> ∅)
    by (apply (bool_decide_eq_true_1 (whitelist g2 <> ∅)); vm_compute; reflexivity).
  assert (H4 : first_char "q1" = "q"%char \/ first_char "q1" = "Q"%char) by (left; reflexivity).
  assert (H5 : "q" ∈ whitelist g2 \/ "Q" ∈ whitelist g2)
    by (right; apply (bool_decide_eq_true_1 ("Q" ∈ whitelist g2));
        vm_compute; reflexivity).
  split.
  - split; [exact H1|]. split; [exact H2|].
    apply (proj1 (whitelist_filter g1 "re" H1) H2).
    intros [H | H]; discriminate H.
  - split; [exact H3|]. split; [exact H4|]. split; [exact H5|].
    exact (proj2 (proj2 (whitelist_filter g2 "q1" H3) H4 H5) eq_refl).
Defined.

(** [1 q 2]: the operand [2] is pending at the end. *)
Lemma end_of_stream_warning_witness :
  let T := [Integer 1; Operator "q"; Integer 2] in
  exists g,
    handleObjects (OperandGrouper_new "") T = Some g /\
    getWarning (handleEOF g) = "Unexpected end of stream" /\
    (getWarning (handleEOF g) = "Unexpected end of stream" <-> tokens g <> []) /\
    (tokens g = [] -> getWarning (handleEOF g) = "") /\
    getInstructions (handleEOF g) = getInstructions g.
Proof.
  intros T.
  destruct (handleObjects (OperandGrouper_new "") T) as [g|] eqn:E;
    [|vm_compute in E; discriminate E].
  exists g. split; [reflexivity|].
  split; [|exact (end_of_stream_warning "" T g E)].
  vm_compute in E. injection E as <-. reflexivity.
Defined.

(** Index 2 on [1 0 cm] and on an inline image. *)
Lemma getitem_as_pair_witness :
  let csi := mkContentStreamInstruction [Integer 1; Integer 0] (Operator "cm") in
  let csii := mkContentStreamInlineImage [Name "/F"] (InlineImage "data") in
  (2 <> 0 /\ 2 <> 1 /\ 2 <> -1 /\ 2 <> -2) /\
  csi_getitem csi 2 = Raise (index_error "Invalid index 2") /\
  csii_getitem (sv := plain_services) csii 2 = Raise (index_error "Invalid index 2") /\
  csi_getitem csi (-1) = Ok (PyObjectHandle (Operator "cm")) /\
  csii_getitem (sv := plain_services) csii 0
  = Ok (PySequence [PyPdfInlineImage (InlineImage "data") [Name "/F"]]).
Proof.
  intros csi csii.
  assert (H0 : 2 <> 0) by lia. assert (H1 : 2 <> 1) by lia.
  assert (H2 : 2 <> -1) by lia. assert (H3 : 2 <> -2) by lia.
  pose proof (@getitem_as_pair plain_services csi csii) as [Hcsi Hcsii].
  split; [auto|].
  split; [exact (proj2 (proj2 (proj2 (proj2 (proj2 Hcsi)))) 2 H0 H1 H2 H3)|].
  split; [exact (proj2 (proj2 (proj2 (proj2 (proj2 Hcsii)))) 2 H0 H1 H2 H3)|].
  split; [exact (proj1 (proj2 (proj2 (proj2 Hcsi))))|].
  exact (proj1 Hcsii).
Defined.


(** The pair (["a", "b"], "Tj"), and a pair whose operator is the integer
    object 3, alone and after the pair ([1], "w"). *)
Lemma fallback_operator_coercion_witness :
  let pyoperands := [PyStr "a"; PyStr "b"] in
  let objs := [String_ "a"; String_ "b"] in
  let pre := [ItemSequence [PySequence [PyInt 1]; PyStr "w"]] in
  let o := PyObjectHandle (Integer 3) in
  c_str "Tj" <> "INLINE IMAGE" /\
  encoded_as (sv := plain_services) pyoperands objs /\
  unparse_content_stream (sv := plain_services)
    [ItemSequence [PySequence pyoperands; PyStr "Tj"]]
  = Ok "(a) (b) Tj" /\
  fallback_operator (sv := plain_services) 0 o
  = Raise (type_error
      "At content stream instruction 0, the operator is not of type pikepdf.Operator, bytes or str") /\
  unparse_content_stream (sv := plain_services) pre = Ok "1 w" /\
  Z.of_nat (fallback_count pre) < uint_modulus /\
  cast_QPDFObjectHandle (Services := plain_services) o = Ok (Integer 3) /\
  isOperator (Integer 3) = false /\
  unparse_content_stream (sv := plain_services)
    (pre ++ [ItemSequence [PySequence []; o]])
  = Raise (type_error
      "At content stream instruction 1, the operator is not of type pikepdf.Operator, bytes or str").
Proof.
  intros pyoperands objs pre o.
  assert (H1 : c_str "Tj" <> "INLINE IMAGE") by discriminate.
  assert (H2 : encoded_as (sv := plain_services) pyoperands objs)
    by (repeat constructor).
  assert (H3 : unparse_content_stream (sv := plain_services) pre = Ok "1 w")
    by reflexivity.
  assert (H4 : Z.of_nat (fallback_count pre) < uint_modulus) by reflexivity.
  assert (H5 : cast_QPDFObjectHandle (Services := plain_services) o = Ok (Integer 3))
    by reflexivity.
  assert (H6 : isOperator (Integer 3) = false) by reflexivity.
  assert (Hs : forall s', o <> PyStr s') by (intros s'; discriminate).
  assert (Hb : forall s', o <> PyBytes s') by (intros s'; discriminate).
  pose proof (@fallback_operator_coercion plain_services 0 "Tj" pyoperands objs)
    as (_ & _ & Hcast & Hpair & Hcall).
  split; [exact H1|]. split; [exact H2|].
  split; [exact (Hpair H1 H2 (PyStr "Tj") (or_introl eq_refl))|].
  split; [exact (proj1 (Hcast o Hs Hb) (Integer 3) H5)|].
  split; [exact H3|]. split; [exact H4|]. split; [exact H5|]. split; [exact H6|].
  exact (proj1 (Hcall pre [] "1 w" (PySequence []) o H3 H4 Hs Hb) (Integer 3) H5 H6).
Defined.

(** * Further properties of the grouper *)

(** ** The whitelist given to the constructor *)

Lemma no_space_app (s t : string) : no_space s -> no_space t -> no_space (s +:+ t).
Proof.
  induction s as [|c s IH]; intros Hs Ht; [exact Ht|].
  destruct Hs as [Hc Hs]. rewrite append_cons. split; [exact Hc | now apply IH].
Qed.

Lemma getline_loop_piece (a : string) :
  forall f s, no_space a -> getline_loop (a +:+ f) s = getline_loop f (s +:+ a).
Proof.
  induction a as [|c a IH]; intros f s Ha.
  - now rewrite append_nil_l, append_nil_r.
  - destruct Ha as [Hc Ha]. rewrite append_cons. cbn [getline_loop].
    destruct (decide (c = " "%char)) as [E|_]; [contradiction|].
    rewrite IH by assumption. now rewrite append_assoc.
Qed.

Lemma getline_loop_nil (f : string) :
  forall s, getline_loop f s = [] -> f = "" /\ s = "".
Proof.
  induction f as [|c f IH]; intros s H; simpl in H.
  - destruct (decide (s = "")); [now split | discriminate H].
  - destruct (decide (c = " "%char)); [discriminate H|].
    destruct (IH _ H) as [_ E]. destruct s; discriminate E.
Qed.

Lemma getline_loop_pieces (f : string) :
  forall s, no_space s -> Forall no_space (getline_loop f s).
Proof.
  induction f as [|c f IH]; intros s Hs; simpl.
  - destruct (decide (s = "")); repeat constructor; assumption.
  - destruct (decide (c = " "%char)) as [E|E].
    + constructor; [exact Hs | now apply IH].
    + apply IH, no_space_app; [exact Hs | now split].
Qed.

(** X1.  Names that are not empty and hold no space, written with one space
    between them, are read back by the constructor as they are: the
    whitelist is the set of these names. *)
Theorem whitelist_of_joined_names (names : list string) :
  Forall (fun s => s <> "" /\ no_space s) names ->
  getline_loop (String.concat " " names) "" = names /\
  whitelist (OperandGrouper_new (String.concat " " names)) = list_to_set names.
Proof.
  intros H.
  assert (E : getline_loop (String.concat " " names) "" = names).
  { induction H as [|x names [Hx Hs] Hnames IH]; [reflexivity|].
    destruct names as [|y names].
    - simpl. rewrite <- (append_nil_r x) at 1.
      rewrite getline_loop_piece by assumption. rewrite append_nil_l. simpl.
      destruct (decide (x = "")); [contradiction | reflexivity].
    - change (String.concat " " (x :: y :: names))
        with (x +:+ " " +:+ String.concat " " (y :: names)).
      rewrite getline_loop_piece by assumption.
      change (" " +:+ String.concat " " (y :: names))
        with (String " "%char (String.concat " " (y :: names))).
      cbn [getline_loop]. destruct (decide (" "%char = " "%char)); [|congruence].
      now rewrite append_nil_l, IH. }
  split; [exact E|]. unfold OperandGrouper_new. simpl. now rewrite E.
Qed.

(** X2.  The whitelist is empty, and so the filter off, for the empty
    string only: any other string, a single space too, turns the filter
    on. *)
Theorem whitelist_empty_iff (operators : string) :
  whitelist (OperandGrouper_new operators) = ∅ <-> operators = "".
Proof.
  split.
  - unfold OperandGrouper_new. simpl. intros H.
    destruct (getline_loop operators "") as [|x l] eqn:E.
    + now destruct (getline_loop_nil _ _ E).
    + exfalso. assert (Hx : x ∈ (list_to_set (x :: l) : gset string)) by set_solver.
      rewrite H in Hx. set_solver.
  - intros ->. reflexivity.
Qed.

(** X3.  No name of the whitelist holds a space, whatever string the
    constructor is given. *)
Theorem whitelist_names_have_no_space (operators x : string) :
  x ∈ whitelist (OperandGrouper_new operators) -> no_space x.
Proof.
  unfold OperandGrouper_new. simpl. intros H.
  apply elem_of_list_to_set in H.
  pose proof (getline_loop_pieces operators "" I) as F.
  rewrite Forall_forall in F. now apply F.
Qed.

(** ** Counting and invariants *)

Lemma handleObject_count (g g' : OperandGrouper) (obj : QPDFObjectHandle) :
  handleObject g obj = Some g' -> count g' = uint_incr (count g).
Proof.
  unfold handleObject. intros H.
  destruct (getTypeCode obj); simpl in H; try (injection H as <-; reflexivity).
  destruct (discarded_by_whitelist _ _); [injection H as <-; reflexivity|].
  destruct (bool_decide _); [injection H as <-; reflexivity|].
  destruct (parsing_inline_image g); [|injection H as <-; reflexivity].
  destruct (bool_decide _); [injection H as <-; reflexivity|].
  destruct (bool_decide _); [|injection H as <-; reflexivity].
  destruct (tokens g); [discriminate H|injection H as <-; reflexivity].
Qed.

(** X4.  [count] is the number of tokens handed to the grouper, as a 32-bit
    counter: operands and operators count alike, kept or thrown away. *)
Theorem count_is_number_of_tokens
    (operators : string) (T : ObjectList) (g : OperandGrouper) :
  handleObjects (OperandGrouper_new operators) T = Some g ->
  count g = Z.of_nat (length T) mod uint_modulus.
Proof.
  assert (H : forall T g0 g, 0 <= count g0 < uint_modulus ->
            handleObjects g0 T = Some g ->
            count g = (count g0 + Z.of_nat (length T)) mod uint_modulus).
  { clear. induction T as [|obj T IH]; intros g0 g Hc H; simpl in H.
    - injection H as <-. simpl. now rewrite Z.add_0_r, Z.mod_small.
    - destruct (handleObject g0 obj) as [g1|] eqn:E; [|discriminate H].
      pose proof (handleObject_count _ _ _ E) as E1.
      rewrite (IH g1 g); [| rewrite E1; now apply Z.mod_pos_bound | exact H].
      rewrite E1. change (length (obj :: T)) with (S (length T)).
      apply uint_incr_n_after. }
  intros HT. rewrite (H T (OperandGrouper_new operators) g);
    [reflexivity | simpl; unfold uint_modulus; lia | exact HT].
Qed.

Lemma operand_of_type_code (obj : QPDFObjectHandle) :
  getTypeCode obj <> ot_operator -> is_operand obj.
Proof. destruct obj; simpl; intros H; try reflexivity. now contradiction H. Qed.

Lemma handleObject_invariant (g g' : OperandGrouper) (obj : QPDFObjectHandle) :
  grouper_invariant g -> handleObject g obj = Some g' -> grouper_invariant g'.
Proof.
  intros (Ht & Hm & Hi) H. unfold handleObject in H.
  assert (Hclear : grouper_invariant
                     (set_tokens [] (set_count (uint_incr (count g)) g)))
    by (repeat split; simpl; auto).
  destruct (isOperator obj) eqn:Eop.
  - destruct obj; try discriminate Eop. simpl in H.
    destruct (discarded_by_whitelist _ _); [injection H as <-; exact Hclear|].
    destruct (bool_decide _); [injection H as <-; exact Hclear|].
    destruct (parsing_inline_image g).
    + destruct (bool_decide _).
      { injection H as <-. repeat split; simpl; auto. }
      destruct (bool_decide _); [|injection H as <-; exact Hclear].
      destruct (tokens g) as [|t0 rest]; [discriminate H|].
      injection H as <-. inversion Ht; subst.
      repeat split; simpl; auto.
      apply Forall_app. split; [exact Hi|]. repeat constructor; simpl; auto.
    + injection H as <-. repeat split; simpl; auto.
      apply Forall_app. split; [exact Hi|]. repeat constructor; simpl; auto.
  - assert (E : handleObject g obj
                = Some (set_tokens (tokens g ++ [obj])
                          (set_count (uint_incr (count g)) g)))
      by now apply handleObject_operand.
    unfold handleObject in E. rewrite E in H. injection H as <-.
    repeat split; simpl; auto.
    apply Forall_app. split; [exact Ht | now repeat constructor].
Qed.

(** X5.  At every moment of a parse the pending buffer and the metadata hold
    operands only, and every instruction in the list is an Instruction with
    operands around an operator-typed operator, or an inline image with
    operand metadata and an operand payload. *)
Theorem grouper_keeps_invariant
    (operators : string) (T : ObjectList) (g : OperandGrouper) :
  handleObjects (OperandGrouper_new operators) T = Some g ->
  grouper_invariant g.
Proof.
  assert (H : forall T g0 g, grouper_invariant g0 ->
            handleObjects g0 T = Some g -> grouper_invariant g).
  { clear. induction T as [|obj T IH]; intros g0 g Hinv H; simpl in H.
    - now injection H as <-.
    - destruct (handleObject g0 obj) as [g1|] eqn:E; [|discriminate H].
      apply (IH g1 g); [|exact H]. now apply (handleObject_invariant g0 g1 obj). }
  apply H. repeat split; constructor.
Qed.

Lemma handleObject_emits (g g' : OperandGrouper) (obj : QPDFObjectHandle) :
  handleObject g obj = Some g' ->
  exists new,
    instructions g' = instructions g ++ new /\
    (length new <= if isOperator obj then 1 else 0)%nat.
Proof.
  unfold handleObject, isOperator. intros H.
  assert (Hnone : exists new, instructions g = instructions g ++ new /\
                              (length new <= 0)%nat)
    by (exists []; now rewrite app_nil_r).
  assert (Hnone1 : exists new, instructions g = instructions g ++ new /\
                               (length new <= 1)%nat)
    by (exists []; rewrite app_nil_r; simpl; split; [reflexivity | lia]).
  destruct (getTypeCode obj); simpl in H; try (injection H as <-; exact Hnone).
  destruct (discarded_by_whitelist _ _); [injection H as <-; exact Hnone1|].
  destruct (bool_decide _); [injection H as <-; exact Hnone1|].
  destruct (parsing_inline_image g).
  - destruct (bool_decide _); [injection H as <-; exact Hnone1|].
    destruct (bool_decide _); [|injection H as <-; exact Hnone1].
    destruct (tokens g); [discriminate H|]. injection H as <-. simpl.
    eexists. split; [reflexivity | simpl; lia].
  - injection H as <-. simpl. eexists. split; [reflexivity | simpl; lia].
Qed.

(** X6.  The instruction list only grows, and by at most one instruction for
    each operator token: what has been appended stays, and operands alone
    append nothing. *)
Theorem instructions_only_grow (g g' : OperandGrouper) (T : ObjectList) :
  handleObjects g T = Some g' ->
  exists new,
    instructions g' = instructions g ++ new /\
    (length new <= operator_count T)%nat.
Proof.
  revert g. induction T as [|obj T IH]; intros g H; simpl in H.
  - injection H as <-. exists []. rewrite app_nil_r. split; [reflexivity | simpl; lia].
  - destruct (handleObject g obj) as [g1|] eqn:E; [|discriminate H].
    destruct (handleObject_emits _ _ _ E) as (new1 & E1 & L1).
    destruct (IH _ H) as (new2 & E2 & L2).
    exists (new1 ++ new2). split; [now rewrite E2, E1, <- app_assoc|].
    rewrite length_app. unfold operator_count in *.
    destruct (isOperator obj) eqn:Eop.
    + rewrite filter_cons_True by exact Eop. simpl. lia.
    + rewrite filter_cons_False by congruence. lia.
Qed.

(** X7.  The one step without defined behaviour is an EI that passes the
    whitelist inside an inline image while the buffer is empty (the code
    reads [tokens[0]]); every other step is defined. *)
Theorem handleObject_undefined_iff (g : OperandGrouper) (obj : QPDFObjectHandle) :
  handleObject g obj = None <->
  obj = Operator "EI" /\
  discarded_by_whitelist (whitelist g) "EI" = false /\
  parsing_inline_image g = true /\
  tokens g = [].
Proof.
  split.
  - unfold handleObject. intros H.
    destruct obj; try discriminate H. simpl in H.
    destruct (discarded_by_whitelist (whitelist g) s) eqn:Ed; [discriminate H|].
    destruct (bool_decide (s = "BI")); [discriminate H|].
    destruct (parsing_inline_image g); [|discriminate H].
    destruct (bool_decide (s = "ID")); [discriminate H|].
    destruct (bool_decide (s = "EI")) eqn:Eei; [|discriminate H].
    apply bool_decide_eq_true_1 in Eei. subst s.
    destruct (tokens g); [repeat split; assumption | discriminate H].
  - intros (-> & Hd & Hp & Ht). unfold handleObject. simpl.
    now rewrite Hd, Hp, Ht.
Qed.

(** ** The whitelist as a filter on the grouping *)

Lemma handleObjects_filtered (T : ObjectList) :
  forall g,
  parsing_inline_image g = false ->
  Forall (fun obj => isOperator obj = true -> getOperatorValue obj <> "BI") T ->
  exists g',
    handleObjects g T = Some g' /\
    whitelist g' = whitelist g /\
    parsing_inline_image g' = false /\
    warning g' = warning g /\
    instructions g'
    = instructions g
      ++ map ItemInstruction
           (filter (kept_by_whitelist (whitelist g)) (fst (group_from (tokens g) T))) /\
    tokens g' = snd (group_from (tokens g) T).
Proof.
  induction T as [|obj T IH]; intros g Hp HT.
  - exists g. simpl. now rewrite app_nil_r.
  - inversion HT as [|? ? Hobj HT']; subst. simpl.
    destruct (isOperator obj) eqn:E.
    + destruct obj as [| | | | | | | |op|]; try discriminate E.
      destruct (discarded_by_whitelist (whitelist g) op) eqn:Ed.
      * rewrite handleObject_discarded by exact Ed.
        match goal with |- context [handleObjects ?g1 T] =>
          destruct (IH g1) as (g' & E1 & E2 & E3 & E4 & E5 & E6);
            [exact Hp | exact HT' |] end.
        exists g'. simpl in E2, E4, E5, E6.
        destruct (group_from [] T) as [instrs pending]. simpl in *.
        rewrite filter_cons_False by (unfold kept_by_whitelist; simpl; congruence).
        repeat split; auto.
      * rewrite handleObject_instruction;
          [| exact Ed | exact Hp | now apply Hobj].
        match goal with |- context [handleObjects ?g1 T] =>
          destruct (IH g1) as (g' & E1 & E2 & E3 & E4 & E5 & E6);
            [exact Hp | exact HT' |] end.
        exists g'. simpl in E2, E4, E5, E6.
        destruct (group_from [] T) as [instrs pending]. simpl in *.
        rewrite filter_cons_True by exact Ed.
        rewrite E5, <- app_assoc. repeat split; auto.
    + rewrite (handleObject_operand g obj E).
      match goal with |- context [handleObjects ?g1 T] =>
        destruct (IH g1) as (g' & E1 & E2 & E3 & E4 & E5 & E6);
          [exact Hp | exact HT' |] end.
      exists g'. repeat split; auto.
Qed.

(** X8.  On a stream without BI operator the parse with a whitelist is
    defined, and its instructions are those of the parse without whitelist
    that the whitelist lets through, in the same order and with the same
    operands: an operator thrown away still ends the run of operands before
    it.  The warning is the same in both parses. *)
Theorem whitelist_filters_the_grouping (operators : string) (T : ObjectList) :
  Forall (fun obj => isOperator obj = true -> getOperatorValue obj <> "BI") T ->
  exists g gw cs,
    parse_content_stream "" T = Some g /\
    parse_content_stream operators T = Some gw /\
    getInstructions g = map ItemInstruction cs /\
    getInstructions gw
    = map ItemInstruction
        (filter (kept_by_whitelist (whitelist (OperandGrouper_new operators))) cs) /\
    getWarning gw = getWarning g.
Proof.
  intros HT.
  destruct (handleObjects_plain T (OperandGrouper_new ""))
    as (g & E1 & _ & _ & E4 & E5 & E6); [reflexivity | reflexivity | exact HT |].
  destruct (handleObjects_filtered T (OperandGrouper_new operators))
    as (gw & F1 & _ & _ & F4 & F5 & F6); [reflexivity | exact HT |].
  simpl in *.
  exists (handleEOF g), (handleEOF gw), (fst (group_from [] T)).
  unfold parse_content_stream. rewrite E1, F1. simpl.
  destruct (handleEOF_fields g) as (-> & _ & ->).
  destruct (handleEOF_fields gw) as (-> & _ & ->).
  rewrite E6, F6, E4, F4. repeat split; auto.
Qed.

(** X9.  Without whitelist and without BI, grouping goes along with
    concatenation at an operator: when the first stream is empty or ends
    with an operator, the instructions of the two streams put together are
    the instructions of the first followed by those of the second. *)
Theorem grouping_of_concatenation (T1 T2 : ObjectList) :
  Forall (fun obj => isOperator obj = true -> getOperatorValue obj <> "BI") (T1 ++ T2) ->
  ends_with_operator T1 ->
  exists g1 g2 g,
    parse_content_stream "" T1 = Some g1 /\
    parse_content_stream "" T2 = Some g2 /\
    parse_content_stream "" (T1 ++ T2) = Some g /\
    getInstructions g = getInstructions g1 ++ getInstructions g2 /\
    getWarning g = getWarning g2.
Proof.
  intros HT Hend. apply Forall_app in HT as [HT1 HT2].
  destruct (handleObjects_plain T1 (OperandGrouper_new ""))
    as (g1 & A1 & _ & _ & A4 & A5 & A6); [reflexivity | reflexivity | exact HT1 |].
  destruct (handleObjects_plain T2 (OperandGrouper_new ""))
    as (g2 & B1 & _ & _ & B4 & B5 & B6); [reflexivity | reflexivity | exact HT2 |].
  destruct (handleObjects_plain (T1 ++ T2) (OperandGrouper_new ""))
    as (g & C1 & _ & _ & C4 & C5 & C6);
    [reflexivity | reflexivity | apply Forall_app; now split |].
  simpl in *. rewrite group_from_app in C5, C6. simpl in C5, C6.
  rewrite (group_from_pending T1 [] Hend (fun _ => eq_refl)) in C5, C6.
  exists (handleEOF g1), (handleEOF g2), (handleEOF g).
  unfold parse_content_stream. rewrite A1, B1, C1. simpl.
  destruct (handleEOF_fields g1) as (-> & _ & _).
  destruct (handleEOF_fields g2) as (-> & _ & ->).
  destruct (handleEOF_fields g) as (-> & _ & ->).
  rewrite A5, B5, C5, C6, B6, C4, B4, map_app. repeat split; auto.
Qed.

(** ** One inline image, in general *)

Lemma handleObjects_operands (ops : ObjectList) :
  forall g,
  Forall is_operand ops ->
  exists g',
    handleObjects g ops = Some g' /\
    whitelist g' = whitelist g /\
    tokens g' = tokens g ++ ops /\
    parsing_inline_image g' = parsing_inline_image g /\
    inline_metadata g' = inline_metadata g /\
    instructions g' = instructions g.
Proof.
  induction ops as [|obj ops IH]; intros g H.
  - exists g. simpl. now rewrite app_nil_r.
  - inversion H as [|? ? Hobj Hops]; subst. simpl.
    rewrite (handleObject_operand g obj Hobj).
    match goal with |- context [handleObjects ?g1 ops] =>
      destruct (IH g1 Hops) as (g' & E1 & E2 & E3 & E4 & E5 & E6) end.
    exists g'. simpl in *. rewrite E3, <- app_assoc. repeat split; auto.
Qed.

Lemma handleObjects_cons (g : OperandGrouper) (obj : QPDFObjectHandle) (T : ObjectList) :
  handleObjects g (obj :: T)
  = match handleObject g obj with
    | Some g' => handleObjects g' T
    | None => None
    end.
Proof. reflexivity. Qed.

Lemma marker_not_discarded (w : gset string) (op : string) :
  first_char op <> "q"%char -> first_char op <> "Q"%char ->
  w = ∅ \/ op ∈ w ->
  discarded_by_whitelist w op = false.
Proof.
  intros Hq HQ [-> | H]; [apply discarded_empty_whitelist|].
  unfold discarded_by_whitelist. apply andb_false_iff. right.
  rewrite !bool_decide_eq_false_2 by assumption. simpl.
  apply bool_decide_eq_false_2. intros Hn. now apply Hn.
Qed.

(** X10.  One inline image, from any state of the grouper in which BI, ID
    and EI pass the whitelist: the tokens BI, metadata, ID, payload, EI
    append exactly one inline-image instruction, with the operands between
    BI and ID as metadata and the first token after ID as image data.
    Operands pending before BI and tokens between the payload and EI are
    dropped, and the buffer and the metadata are empty afterwards, so that
    the next image starts afresh. *)
Theorem inline_image_is_grouped
    (g : OperandGrouper) (metadata extra : ObjectList) (payload : QPDFObjectHandle) :
  whitelist g = ∅ \/
    ("BI" ∈ whitelist g /\ "ID" ∈ whitelist g /\ "EI" ∈ whitelist g) ->
  Forall is_operand metadata ->
  is_operand payload ->
  Forall is_operand extra ->
  exists g',
    handleObjects g (inline_image_tokens metadata payload extra) = Some g' /\
    instructions g'
    = instructions g
      ++ [ItemInlineImage (mkContentStreamInlineImage metadata payload)] /\
    tokens g' = [] /\
    inline_metadata g' = [] /\
    parsing_inline_image g' = true /\
    whitelist g' = whitelist g.
Proof.
  intros Hw Hmeta Hpayload Hextra.
  assert (Hbi : discarded_by_whitelist (whitelist g) "BI" = false)
    by (apply marker_not_discarded; [discriminate | discriminate | tauto]).
  assert (Hid : discarded_by_whitelist (whitelist g) "ID" = false)
    by (apply marker_not_discarded; [discriminate | discriminate | tauto]).
  assert (Hei : discarded_by_whitelist (whitelist g) "EI" = false)
    by (apply marker_not_discarded; [discriminate | discriminate | tauto]).
  unfold inline_image_tokens.
  rewrite handleObjects_cons, handleObject_BI by exact Hbi.
  rewrite handleObjects_app.
  match goal with |- context [handleObjects ?g1 metadata] =>
    destruct (handleObjects_operands metadata g1 Hmeta)
      as (g2 & A1 & A2 & A3 & A4 & A5 & A6) end.
  rewrite A1. simpl in A2, A3, A4, A5, A6.
  rewrite handleObjects_cons, handleObject_ID by (rewrite ?A2; assumption).
  change (payload :: extra ++ [Operator "EI"])
    with ((payload :: extra) ++ [Operator "EI"]).
  rewrite handleObjects_app.
  match goal with |- context [handleObjects ?g3 (payload :: extra)] =>
    destruct (handleObjects_operands (payload :: extra) g3)
      as (g4 & B1 & B2 & B3 & B4 & B5 & B6); [now constructor|] end.
  rewrite B1. simpl in B2, B3, B4, B5, B6.
  rewrite handleObjects_cons, (handleObject_EI g4 payload extra);
    [| rewrite B2, A2; exact Hei | rewrite B4; exact A4 | exact B3].
  eexists. split; [reflexivity|]. simpl.
  rewrite B5, B6, A3, A6, B2, A2, B4, A4. repeat split; reflexivity.
Qed.

(** * Further properties of the serializer *)

Lemma delimited_app (bs1 bs2 : list string) :
  delimited newline (bs1 ++ bs2) = delimited newline bs1 +:+ delimited newline bs2.
Proof.
  induction bs1 as [|b bs1 IH]; [reflexivity|].
  simpl. now rewrite IH, !append_assoc.
Qed.

Lemma concat_newline_app (bs1 bs2 : list string) :
  bs1 <> [] -> bs2 <> [] ->
  String.concat newline (bs1 ++ bs2)
  = String.concat newline bs1 +:+ newline +:+ String.concat newline bs2.
Proof.
  intros H1 H2. destruct bs1 as [|b1 bs1]; [congruence|].
  destruct bs2 as [|b2 bs2]; [congruence|].
  rewrite <- app_comm_cons, !concat_delimited, delimited_app.
  cbn [delimited]. now rewrite !append_assoc.
Qed.

Lemma c_str_no_nul (s : string) : no_nul s -> c_str s = s.
Proof.
  induction s as [|c s IH]; [reflexivity|]. intros [Hc Hs]. simpl.
  destruct (decide (c = "000"%char)); [contradiction | now rewrite IH].
Qed.

Lemma c_str_cut (a b : string) :
  no_nul a -> c_str (a +:+ String "000" b) = a.
Proof.
  induction a as [|c a IH]; [reflexivity|]. intros [Hc Ha].
  rewrite append_cons. simpl.
  destruct (decide (c = "000"%char)); [contradiction | now rewrite IH].
Qed.

Section SerializerMore.
Context {sv : Services}.

Lemma fallback_operator_any_n (n n' : Z) (o : PyObject) (op : QPDFObjectHandle) :
  fallback_operator n o = Ok op -> fallback_operator n' o = Ok op.
Proof.
  unfold fallback_operator.
  destruct o; try exact (fun H => H);
    (destruct (cast_QPDFObjectHandle _) as [typed|exn]; simpl; [|discriminate];
     destruct (isOperator typed); [exact (fun H => H) | discriminate]).
Qed.

Lemma unparse_fallback_any_n
    (n n' : Z) (ss : string) (operands_op : list PyObject) (b : string) :
  unparse_fallback n ss operands_op = Ok b ->
  unparse_fallback n' ss operands_op = Ok b.
Proof.
  unfold unparse_fallback.
  destruct operands_op as [|operands0 [|operator_ [|x l]]]; try discriminate.
  destruct (fallback_operator n operator_) as [op|e] eqn:E; [|discriminate].
  rewrite (fallback_operator_any_n n n' _ _ E). simpl.
  destruct (bool_decide _); [|exact (fun H => H)].
  destruct (sequence_items operands0) as [[|iimage l]|e]; simpl; try discriminate.
  destruct iimage; try discriminate. exact (fun H => H).
Qed.

Lemma item_bytes_any_n (n n' : Z) (item : PyItem) (b : string) :
  item_bytes n item = Ok b -> item_bytes n' item = Ok b.
Proof.
  destruct item; simpl; try exact (fun H => H). apply unparse_fallback_any_n.
Qed.

Lemma items_bytes_any_n (contentstream : list PyItem) :
  forall n n' bs,
  items_bytes n contentstream = Ok bs -> items_bytes n' contentstream = Ok bs.
Proof.
  induction contentstream as [|item rest IH]; intros n n' bs H; [exact H|].
  cbn [items_bytes] in *.
  destruct (item_bytes n item) as [b|e] eqn:E; [|discriminate H].
  rewrite (item_bytes_any_n n n' _ _ E). simpl in *.
  destruct (items_bytes (next_n n item) rest) as [bs'|e] eqn:E'; [|discriminate H].
  now rewrite (IH _ (next_n n' item) _ E').
Qed.

Lemma items_bytes_app (pre : list PyItem) :
  forall n n' post bs1 bs2,
  items_bytes n pre = Ok bs1 ->
  items_bytes n' post = Ok bs2 ->
  items_bytes n (pre ++ post) = Ok (bs1 ++ bs2).
Proof.
  induction pre as [|item pre IH]; intros n n' post bs1 bs2 H1 H2.
  - injection H1 as <-. simpl. now apply (items_bytes_any_n post n' n).
  - rewrite <- app_comm_cons. cbn [items_bytes] in *.
    destruct (item_bytes n item) as [b|e]; [|discriminate H1]. simpl in *.
    destruct (items_bytes (next_n n item) pre) as [bs|e] eqn:E; [|discriminate H1].
    injection H1 as <-. simpl.
    now rewrite (IH _ n' post bs bs2 E H2).
Qed.

Lemma items_bytes_length (contentstream : list PyItem) :
  forall n bs,
  items_bytes n contentstream = Ok bs -> length bs = length contentstream.
Proof.
  induction contentstream as [|item rest IH]; intros n bs H.
  - now injection H as <-.
  - cbn [items_bytes] in H.
    destruct (item_bytes n item); [|discriminate H]. simpl in H.
    destruct (items_bytes (next_n n item) rest) as [bs'|e] eqn:E; [|discriminate H].
    injection H as <-. simpl. now rewrite (IH _ _ E).
Qed.

Lemma unparse_content_stream_join (contentstream : list PyItem) :
  unparse_content_stream contentstream
  = try! bs <- items_bytes 0 contentstream; Ok (String.concat newline bs).
Proof.
  unfold unparse_content_stream. rewrite unparse_loop_spec.
  destruct (items_bytes 0 contentstream) as [bs|e]; [|reflexivity]. simpl.
  now rewrite delimited_empty_delim.
Qed.

(** X11.  Serialization goes along with concatenation: when two iterables
    that are not empty serialize, the two put together serialize to the
    bytes of the first, one newline, the bytes of the second.  In
    particular the bytes an item gives do not depend on its position. *)
Theorem unparse_of_concatenation (pre post : list PyItem) (a b : string) :
  unparse_content_stream pre = Ok a ->
  unparse_content_stream post = Ok b ->
  pre <> [] -> post <> [] ->
  unparse_content_stream (pre ++ post) = Ok (a +:+ newline +:+ b).
Proof.
  rewrite !unparse_content_stream_join. intros Ha Hb Hpre Hpost.
  destruct (items_bytes 0 pre) as [bs1|e] eqn:E1; [|discriminate Ha].
  destruct (items_bytes 0 post) as [bs2|e] eqn:E2; [|discriminate Hb].
  simpl in Ha, Hb. injection Ha as <-. injection Hb as <-.
  rewrite (items_bytes_app pre 0 0 post bs1 bs2 E1 E2). simpl.
  rewrite concat_newline_app; [reflexivity | |].
  - intros ->. apply items_bytes_length in E1. now destruct pre.
  - intros ->. apply items_bytes_length in E2. now destruct post.
Qed.

(** X12.  No partial output: when the items of [pre] serialize and the next
    item raises, the call raises that exception, whatever [pre] has written
    and whatever follows the item. *)
Theorem unparse_raises_at_first_failure
    (pre post : list PyItem) (item : PyItem) (out : string) (e : exception) :
  unparse_content_stream pre = Ok out ->
  item_bytes (n_after 0 pre) item = Raise e ->
  unparse_content_stream (pre ++ item :: post) = Raise e.
Proof.
  intros Hpre Hitem. unfold unparse_content_stream in *.
  rewrite unparse_loop_app by (unfold uint_modulus; lia).
  rewrite Hpre. cbn [bind]. rewrite unparse_loop_cons, Hitem. reflexivity.
Qed.

(** X13.  A pair whose operator resolves to INLINE IMAGE, whether given as
    text, as bytes or as an operator object: when the first operand is a
    PdfInlineImage the pair is written as the bytes [unparse] gives for it,
    and further operands are ignored; when it is something else the call
    raises the value error "Expected PdfInlineImage as operand for
    instruction N"; with no operand at all the read of [operands[0]]
    raises. *)
Theorem inline_image_pair
    (n : Z) (ss : string) (operator_ : PyObject) (op : QPDFObjectHandle)
    (rest : list PyObject) :
  fallback_operator n operator_ = Ok op ->
  getOperatorValue op = "INLINE IMAGE" ->
  (forall d m,
     unparse_fallback n ss [PySequence (PyPdfInlineImage d m :: rest); operator_]
     = try! b <- PdfInlineImage_unparse (PyPdfInlineImage d m); Ok (ss +:+ b)) /\
  (forall x, (forall d m, x <> PyPdfInlineImage d m) ->
     unparse_fallback n ss [PySequence (x :: rest); operator_]
     = Raise (value_error
         ("Expected PdfInlineImage as operand for instruction " +:+ pretty n))) /\
  unparse_fallback n ss [PySequence []; operator_]
  = Raise (error_already_set "IndexError").
Proof.
  intros Hop Hname. unfold unparse_fallback. rewrite Hop. simpl bind.
  rewrite (bool_decide_eq_true_2 _ Hname). simpl.
  split; [reflexivity|]. split; [|reflexivity].
  intros x Hx. destruct x; try reflexivity.
  now contradiction (Hx image_data0 image_object).
Qed.

(** X14.  An inline-image instruction and the pair its [__getitem__] gives
    serialize alike: when [csii[0]] returns (the PdfInlineImage constructor
    accepts the data) and the cast gives back the operator of [csii[1]],
    the pair ([csii[0]], [csii[1]]) goes through the fallback to the bytes
    of the instruction itself. *)
Theorem inline_image_pair_view
    (csii : ContentStreamInlineImage) (a : PyObject) :
  csii_getitem csii 0 = Ok a ->
  cast_QPDFObjectHandle (PyObjectHandle (get_operator csii)) = Ok (get_operator csii) ->
  csii_getitem csii 1 = Ok (PyObjectHandle (get_operator csii)) /\
  unparse_content_stream [ItemSequence [a; PyObjectHandle (get_operator csii)]]
  = unparse_content_stream [ItemInlineImage csii].
Proof.
  intros Ha Hcast. split; [reflexivity|].
  unfold csii_getitem in Ha. simpl in Ha.
  unfold get_operands, get_inline_image in Ha.
  unfold unparse_content_stream. cbn [unparse_loop].
  unfold write_inline_image, get_inline_image, unparse_fallback, fallback_operator.
  rewrite Hcast. simpl bind.
  destruct (PdfInlineImage_init (image_data csii) (image_metadata csii)) as [u|e];
    [|discriminate Ha].
  simpl in Ha. injection Ha as <-. simpl.
  destruct (PdfInlineImage_unparse _); reflexivity.
Qed.

(** X15.  An Instruction and the pair its [__getitem__] gives serialize
    alike, when the binding layer gives wrapped objects back as they are
    (the cast on the operator, the encoder on each operand, the bound list
    seen as a sequence) and the operator is an operator not named INLINE
    IMAGE. *)
Theorem instruction_pair_view (csi : ContentStreamInstruction) :
  isOperator (operator_ csi) = true ->
  getOperatorValue (operator_ csi) <> "INLINE IMAGE" ->
  cast_QPDFObjectHandle (PyObjectHandle (operator_ csi)) = Ok (operator_ csi) ->
  foreign_sequence (PyObjectList (operands csi))
  = Ok (map PyObjectHandle (operands csi)) ->
  Forall (fun h => objecthandle_encode (PyObjectHandle h) = Ok h) (operands csi) ->
  csi_getitem csi 0 = Ok (csi_operands csi) /\
  csi_getitem csi 1 = Ok (csi_operator csi) /\
  unparse_content_stream [csi_pair csi] = unparse_content_stream [ItemInstruction csi].
Proof.
  intros Hop Hname Hcast Hseq Henc.
  split; [reflexivity|]. split; [reflexivity|].
  unfold unparse_content_stream, csi_pair, csi_operands, csi_operator.
  cbn [unparse_loop unparse_fallback fallback_operator].
  rewrite Hcast. cbn [bind]. rewrite Hop. cbn [bind].
  rewrite (bool_decide_eq_false_2 _ Hname).
  simpl sequence_items. rewrite Hseq. simpl bind.
  assert (E : encoded_as (map PyObjectHandle (operands csi)) (operands csi)).
  { clear -Henc. unfold encoded_as.
    induction Henc as [|h l Hh _ IH]; constructor; assumption. }
  rewrite (write_operands_encoded _ _ E). reflexivity.
Qed.

(** X16.  The text of an operator given as [str] or [bytes] stops at its
    first NUL: what follows the NUL is not part of the operator; a text
    without NUL is taken whole. *)
Theorem operator_text_stops_at_nul (n : Z) (a b : string) :
  no_nul a ->
  fallback_operator n (PyStr (a +:+ String "000" b)) = Ok (newOperator a) /\
  fallback_operator n (PyBytes (a +:+ String "000" b)) = Ok (newOperator a) /\
  fallback_operator n (PyStr a) = Ok (newOperator a) /\
  fallback_operator n (PyBytes a) = Ok (newOperator a).
Proof.
  intros Ha. simpl. rewrite c_str_cut, c_str_no_nul by assumption.
  repeat split; reflexivity.
Qed.

End SerializerMore.

(** * The setter of the operands *)

Section OperandsSetterProperties.
Context {sv : Services}.
Variable foreign_iter : PyObject -> result (list PyObject * option exception).

Lemma encode_items_encoded (items : list PyObject) (objs : ObjectList) :
  encoded_as items objs ->
  forall newlist stop,
  encode_items newlist items stop
  = match stop with None => Ok (newlist ++ objs) | Some e => Raise e end.
Proof.
  induction 1 as [|item obj items objs E _ IH]; intros newlist stop.
  - simpl. now rewrite app_nil_r.
  - simpl. rewrite E. simpl. rewrite IH, <- app_assoc. reflexivity.
Qed.

Lemma encode_items_raises
    (pre post : list PyObject) (objs : ObjectList) (item : PyObject) (e : exception) :
  encoded_as pre objs ->
  objecthandle_encode item = Raise e ->
  forall newlist stop,
  encode_items newlist (pre ++ item :: post) stop = Raise e.
Proof.
  induction 1 as [|item' obj pre objs E _ IH]; intros He newlist stop.
  - simpl. now rewrite He.
  - simpl. rewrite E. simpl. now apply IH.
Qed.

Lemma encode_items_inv (items : list PyObject) :
  forall newlist l,
  encode_items newlist items None = Ok l ->
  exists objs, l = newlist ++ objs /\ encoded_as items objs.
Proof.
  induction items as [|item items IH]; intros newlist l H; simpl in H.
  - injection H as <-. exists []. rewrite app_nil_r. split; [reflexivity | constructor].
  - destruct (objecthandle_encode item) as [obj|e] eqn:E; [|discriminate H].
    simpl in H. destruct (IH _ _ H) as (objs & -> & Henc).
    exists (obj :: objs). rewrite <- app_assoc. split; [reflexivity|].
    now constructor.
Qed.

(** X17.  Assigning to [operands]: a bound ObjectList is stored as it is; a
    Python list or tuple is stored as its values encoded one by one, in
    order; and when the encoder raises on a value the assignment raises
    that exception, for the first such value, and stores nothing.  The
    operator is never touched. *)
Theorem operands_setter
    (csi : ContentStreamInstruction) (l : ObjectList)
    (pre post : list PyObject) (objs : ObjectList) (item : PyObject) (e : exception) :
  encoded_as pre objs ->
  csi_set_operands foreign_iter csi (PyObjectList l)
  = Ok (mkContentStreamInstruction l (operator_ csi)) /\
  csi_set_operands foreign_iter csi (PySequence pre)
  = Ok (mkContentStreamInstruction objs (operator_ csi)) /\
  (objecthandle_encode item = Raise e ->
   csi_set_operands foreign_iter csi (PySequence (pre ++ item :: post)) = Raise e).
Proof.
  intros Henc. split; [reflexivity|]. split.
  - unfold csi_set_operands. simpl.
    now rewrite (encode_items_encoded pre objs Henc).
  - intros He. unfold csi_set_operands. simpl.
    now rewrite (encode_items_raises pre post objs item e Henc He).
Qed.

(** X18.  Assigning a Python list to the operands and serializing the
    instruction gives the bytes of the pair (list, operator) on the
    fallback path, when the operator is an operator not named INLINE IMAGE
    that the cast gives back as it is. *)
Theorem set_operands_then_unparse
    (csi csi' : ContentStreamInstruction) (items : list PyObject) :
  csi_set_operands foreign_iter csi (PySequence items) = Ok csi' ->
  isOperator (operator_ csi) = true ->
  getOperatorValue (operator_ csi) <> "INLINE IMAGE" ->
  cast_QPDFObjectHandle (PyObjectHandle (operator_ csi)) = Ok (operator_ csi) ->
  unparse_content_stream [ItemInstruction csi']
  = unparse_content_stream
      [ItemSequence [PySequence items; PyObjectHandle (operator_ csi)]].
Proof.
  intros Hset Hop Hname Hcast.
  unfold csi_set_operands in Hset. simpl in Hset.
  destruct (encode_items [] items None) as [newlist|e] eqn:E; [|discriminate Hset].
  simpl in Hset. injection Hset as <-.
  destruct (encode_items_inv _ _ _ E) as (objs & -> & Henc). simpl.
  unfold unparse_content_stream.
  cbn [unparse_loop unparse_fallback fallback_operator].
  rewrite Hcast. cbn [bind]. rewrite Hop. cbn [bind].
  rewrite (bool_decide_eq_false_2 _ Hname).
  simpl sequence_items. cbn [bind].
  rewrite (write_operands_encoded _ _ Henc). reflexivity.
Qed.

End OperandsSetterProperties.

(** * The further properties on concrete inputs *)

(** The whitelist string "q Tj re". *)
Lemma whitelist_of_joined_names_witness :
  let names := ["q"; "Tj"; "re"] in
  Forall (fun s => s <> "" /\ no_space s) names /\
  getline_loop "q Tj re" "" = names /\
  whitelist (OperandGrouper_new "q Tj re") = list_to_set names.
Proof.
  intros names.
  assert (H : Forall (fun s => s <> "" /\ no_space s) names)
    by (repeat constructor; discriminate).
  split; [exact H|]. exact (whitelist_of_joined_names names H).
Defined.

(** "q  Tj", with two spaces: the names are "q", "" and "Tj". *)
Lemma whitelist_names_have_no_space_witness :
  "Tj" ∈ whitelist (OperandGrouper_new "q  Tj") /\ no_space "Tj".
Proof.
  assert (H : "Tj" ∈ whitelist (OperandGrouper_new "q  Tj"))
    by (apply (bool_decide_eq_true_1 ("Tj" ∈ whitelist (OperandGrouper_new "q  Tj")));
        vm_compute; reflexivity).
  split; [exact H|]. exact (whitelist_names_have_no_space "q  Tj" "Tj" H).
Defined.

(** [1 q 2] with whitelist "Tj": three tokens, none kept. *)
Lemma count_is_number_of_tokens_witness :
  let T := [Integer 1; Operator "q"; Integer 2] in
  exists g,
    handleObjects (OperandGrouper_new "Tj") T = Some g /\
    count g = Z.of_nat (length T) mod uint_modulus.
Proof.
  intros T.
  destruct (handleObjects (OperandGrouper_new "Tj") T) as [g|] eqn:E;
    [|vm_compute in E; discriminate E].
  exists g. split; [reflexivity|].
  exact (count_is_number_of_tokens "Tj" T g E).
Defined.

(** [1 q BI /F ID <data> 2] *)
Lemma grouper_keeps_invariant_witness :
  let T := [Integer 1; Operator "q"; Operator "BI"; Name "/F"; Operator "ID";
            InlineImage "data"; Integer 2] in
  exists g,
    handleObjects (OperandGrouper_new "") T = Some g /\ grouper_invariant g.
Proof.
  intros T.
  destruct (handleObjects (OperandGrouper_new "") T) as [g|] eqn:E;
    [|vm_compute in E; discriminate E].
  exists g. split; [reflexivity|].
  exact (grouper_keeps_invariant "" T g E).
Defined.

(** [1 q 2 3 Q 4]: two operators, at most two instructions. *)
Lemma instructions_only_grow_witness :
  let g := OperandGrouper_new "" in
  let T := [Integer 1; Operator "q"; Integer 2; Integer 3; Operator "Q"; Integer 4] in
  exists g',
    handleObjects g T = Some g' /\
    exists new,
      instructions g' = instructions g ++ new /\
      (length new <= operator_count T)%nat.
Proof.
  intros g T.
  destruct (handleObjects g T) as [g'|] eqn:E; [|vm_compute in E; discriminate E].
  exists g'. split; [reflexivity|].
  exact (instructions_only_grow g g' T E).
Defined.

(** [1 re (a) Tj] with whitelist "Tj". *)
Lemma whitelist_filters_the_grouping_witness :
  let T := [Integer 1; Operator "re"; String_ "a"; Operator "Tj"] in
  Forall (fun obj => isOperator obj = true -> getOperatorValue obj <> "BI") T /\
  exists g gw cs,
    parse_content_stream "" T = Some g /\
    parse_content_stream "Tj" T = Some gw /\
    getInstructions g = map ItemInstruction cs /\
    getInstructions gw
    = map ItemInstruction
        (filter (kept_by_whitelist (whitelist (OperandGrouper_new "Tj"))) cs) /\
    getWarning gw = getWarning g.
Proof.
  intros T.
  assert (H : Forall (fun obj => isOperator obj = true
                                 -> getOperatorValue obj <> "BI") T) by no_BI.
  split; [exact H|]. exact (whitelist_filters_the_grouping "Tj" T H).
Defined.

(** [1 q] and [2 Q 3] *)
Lemma grouping_of_concatenation_witness :
  let T1 := [Integer 1; Operator "q"] in
  let T2 := [Integer 2; Operator "Q"; Integer 3] in
  Forall (fun obj => isOperator obj = true -> getOperatorValue obj <> "BI") (T1 ++ T2) /\
  ends_with_operator T1 /\
  exists g1 g2 g,
    parse_content_stream "" T1 = Some g1 /\
    parse_content_stream "" T2 = Some g2 /\
    parse_content_stream "" (T1 ++ T2) = Some g /\
    getInstructions g = getInstructions g1 ++ getInstructions g2 /\
    getWarning g = getWarning g2.
Proof.
  intros T1 T2.
  assert (H1 : Forall (fun obj => isOperator obj = true
                                  -> getOperatorValue obj <> "BI") (T1 ++ T2))
    by (simpl; no_BI).
  assert (H2 : ends_with_operator T1) by reflexivity.
  split; [exact H1|]. split; [exact H2|].
  exact (grouping_of_concatenation T1 T2 H1 H2).
Defined.

(** [5 BI /W 1 ID <data> 7 EI], on a grouper that holds the operand 5. *)
Lemma inline_image_is_grouped_witness :
  let g := set_tokens [Integer 5] (OperandGrouper_new "") in
  let metadata := [Name "/W"; Integer 1] in
  let payload := InlineImage "data" in
  let extra := [Integer 7] in
  (whitelist g = ∅ \/
     ("BI" ∈ whitelist g /\ "ID" ∈ whitelist g /\ "EI" ∈ whitelist g)) /\
  Forall is_operand metadata /\
  is_operand payload /\
  Forall is_operand extra /\
  exists g',
    handleObjects g (inline_image_tokens metadata payload extra) = Some g' /\
    instructions g'
    = instructions g
      ++ [ItemInlineImage (mkContentStreamInlineImage metadata payload)] /\
    tokens g' = [] /\
    inline_metadata g' = [] /\
    parsing_inline_image g' = true /\
    whitelist g' = whitelist g.
Proof.
  intros g metadata payload extra.
  assert (H1 : whitelist g = ∅ \/
               ("BI" ∈ whitelist g /\ "ID" ∈ whitelist g /\ "EI" ∈ whitelist g))
    by (left; reflexivity).
  assert (H2 : Forall is_operand metadata) by operands_only.
  assert (H3 : is_operand payload) by reflexivity.
  assert (H4 : Forall is_operand extra) by operands_only.
  split; [exact H1|]. split; [exact H2|]. split; [exact H3|]. split; [exact H4|].
  exact (inline_image_is_grouped g metadata extra payload H1 H2 H3 H4).
Defined.

(** [q], and the pair ([1], "w"). *)
Lemma unparse_of_concatenation_witness :
  let pre := [ItemInstruction (mkContentStreamInstruction [] (Operator "q"))] in
  let post := [ItemSequence [PySequence [PyInt 1]; PyStr "w"]] in
  unparse_content_stream (sv := plain_services) pre = Ok "q" /\
  unparse_content_stream (sv := plain_services) post = Ok "1 w" /\
  pre <> [] /\ post <> [] /\
  unparse_content_stream (sv := plain_services) (pre ++ post)
  = Ok ("q" +:+ newline +:+ "1 w").
Proof.
  intros pre post.
  assert (H1 : unparse_content_stream (sv := plain_services) pre = Ok "q")
    by reflexivity.
  assert (H2 : unparse_content_stream (sv := plain_services) post = Ok "1 w")
    by reflexivity.
  assert (H3 : pre <> []) by discriminate.
  assert (H4 : post <> []) by discriminate.
  split; [exact H1|]. split; [exact H2|]. split; [exact H3|]. split; [exact H4|].
  exact (@unparse_of_concatenation plain_services pre post "q" "1 w" H1 H2 H3 H4).
Defined.

(** The pair ([1], "w"), then a pair whose operand is a list: the encoder
    refuses it. *)
Lemma unparse_raises_at_first_failure_witness :
  let pre := [ItemSequence [PySequence [PyInt 1]; PyStr "w"]] in
  let item := ItemSequence [PySequence [PySequence []]; PyStr "S"] in
  let post := [ItemInstruction (mkContentStreamInstruction [] (Operator "Q"))] in
  let e := type_error "Can't convert this object to a PDF object" in
  unparse_content_stream (sv := plain_services) pre = Ok "1 w" /\
  item_bytes (sv := plain_services) (n_after 0 pre) item = Raise e /\
  unparse_content_stream (sv := plain_services) (pre ++ item :: post) = Raise e.
Proof.
  intros pre item post e.
  assert (H1 : unparse_content_stream (sv := plain_services) pre = Ok "1 w")
    by reflexivity.
  assert (H2 : item_bytes (sv := plain_services) (n_after 0 pre) item = Raise e)
    by reflexivity.
  split; [exact H1|]. split; [exact H2|].
  exact (@unparse_raises_at_first_failure plain_services pre post item "1 w" e H1 H2).
Defined.

(** The operator given as the text "INLINE IMAGE". *)
Lemma inline_image_pair_witness :
  let operator_ := PyStr "INLINE IMAGE" in
  let op := Operator "INLINE IMAGE" in
  let image := PyPdfInlineImage (InlineImage "data") [Name "/F"] in
  fallback_operator (sv := plain_services) 0 operator_ = Ok op /\
  getOperatorValue op = "INLINE IMAGE" /\
  unparse_fallback (sv := plain_services) 0 "" [PySequence [image]; operator_]
  = Ok "BI /F ID data EI" /\
  unparse_fallback (sv := plain_services) 0 "" [PySequence [PyInt 42]; operator_]
  = Raise (value_error "Expected PdfInlineImage as operand for instruction 0") /\
  unparse_fallback (sv := plain_services) 0 "" [PySequence []; operator_]
  = Raise (error_already_set "IndexError").
Proof.
  intros operator_ op image.
  assert (H1 : fallback_operator (sv := plain_services) 0 operator_ = Ok op)
    by reflexivity.
  assert (H2 : getOperatorValue op = "INLINE IMAGE") by reflexivity.
  pose proof (@inline_image_pair plain_services 0 "" operator_ op [] H1 H2)
    as (Himage & Hother & Hnone).
  split; [exact H1|]. split; [exact H2|].
  split; [exact (Himage (InlineImage "data") [Name "/F"])|].
  split; [|exact Hnone].
  apply (Hother (PyInt 42)). intros d m. discriminate.
Defined.

(** An inline image with metadata [/F]. *)
Lemma inline_image_pair_view_witness :
  let csii := mkContentStreamInlineImage [Name "/F"] (InlineImage "data") in
  let a := PySequence [PyPdfInlineImage (InlineImage "data") [Name "/F"]] in
  csii_getitem (sv := plain_services) csii 0 = Ok a /\
  cast_QPDFObjectHandle (Services := plain_services) (PyObjectHandle (get_operator csii))
  = Ok (get_operator csii) /\
  csii_getitem (sv := plain_services) csii 1 = Ok (PyObjectHandle (get_operator csii)) /\
  unparse_content_stream (sv := plain_services)
    [ItemSequence [a; PyObjectHandle (get_operator csii)]]
  = unparse_content_stream (sv := plain_services) [ItemInlineImage csii].
Proof.
  intros csii a.
  assert (H1 : csii_getitem (sv := plain_services) csii 0 = Ok a) by reflexivity.
  assert (H2 : cast_QPDFObjectHandle (Services := plain_services)
                 (PyObjectHandle (get_operator csii)) = Ok (get_operator csii))
    by reflexivity.
  split; [exact H1|]. split; [exact H2|].
  exact (@inline_image_pair_view plain_services csii a H1 H2).
Defined.

(** [1 0 cm] *)
Lemma instruction_pair_view_witness :
  let csi := mkContentStreamInstruction [Integer 1; Integer 0] (Operator "cm") in
  isOperator (operator_ csi) = true /\
  getOperatorValue (operator_ csi) <> "INLINE IMAGE" /\
  cast_QPDFObjectHandle (Services := plain_services) (PyObjectHandle (operator_ csi))
  = Ok (operator_ csi) /\
  foreign_sequence (Services := plain_services) (PyObjectList (operands csi))
  = Ok (map PyObjectHandle (operands csi)) /\
  Forall (fun h => objecthandle_encode (Services := plain_services) (PyObjectHandle h)
                   = Ok h) (operands csi) /\
  csi_getitem csi 0 = Ok (csi_operands csi) /\
  csi_getitem csi 1 = Ok (csi_operator csi) /\
  unparse_content_stream (sv := plain_services) [csi_pair csi]
  = unparse_content_stream (sv := plain_services) [ItemInstruction csi].
Proof.
  intros csi.
  assert (H1 : isOperator (operator_ csi) = true) by reflexivity.
  assert (H2 : getOperatorValue (operator_ csi) <> "INLINE IMAGE") by discriminate.
  assert (H3 : cast_QPDFObjectHandle (Services := plain_services)
                 (PyObjectHandle (operator_ csi)) = Ok (operator_ csi)) by reflexivity.
  assert (H4 : foreign_sequence (Services := plain_services)
                 (PyObjectList (operands csi))
               = Ok (map PyObjectHandle (operands csi))) by reflexivity.
  assert (H5 : Forall (fun h => objecthandle_encode (Services := plain_services)
                                  (PyObjectHandle h) = Ok h) (operands csi))
    by (repeat constructor).
  split; [exact H1|]. split; [exact H2|]. split; [exact H3|].
  split; [exact H4|]. split; [exact H5|].
  exact (@instruction_pair_view plain_services csi H1 H2 H3 H4 H5).
Defined.

(** The text "Tj", a NUL, "junk". *)
Lemma operator_text_stops_at_nul_witness :
  let a := "Tj" in
  let b := "junk" in
  no_nul a /\
  fallback_operator (sv := plain_services) 0 (PyStr (a +:+ String "000" b))
  = Ok (newOperator a) /\
  fallback_operator (sv := plain_services) 0 (PyBytes (a +:+ String "000" b))
  = Ok (newOperator a) /\
  fallback_operator (sv := plain_services) 0 (PyStr a) = Ok (newOperator a) /\
  fallback_operator (sv := plain_services) 0 (PyBytes a) = Ok (newOperator a).
Proof.
  intros a b.
  assert (H : no_nul a) by (repeat split; discriminate).
  split; [exact H|].
  exact (@operator_text_stops_at_nul plain_services 0 a b H).
Defined.

(** Operands [1, "a"] assigned to [cm], and an assignment that meets a
    list among the values. *)
Lemma operands_setter_witness :
  let csi := mkContentStreamInstruction [] (Operator "cm") in
  let pre := [PyInt 1; PyStr "a"] in
  let objs := [Integer 1; String_ "a"] in
  let item := PySequence [] in
  let e := type_error "Can't convert this object to a PDF object" in
  encoded_as (sv := plain_services) pre objs /\
  objecthandle_encode (Services := plain_services) item = Raise e /\
  csi_set_operands (sv := plain_services) plain_iter csi (PyObjectList [Integer 7])
  = Ok (mkContentStreamInstruction [Integer 7] (Operator "cm")) /\
  csi_set_operands (sv := plain_services) plain_iter csi (PySequence pre)
  = Ok (mkContentStreamInstruction objs (Operator "cm")) /\
  csi_set_operands (sv := plain_services) plain_iter csi
    (PySequence (pre ++ item :: [PyInt 2])) = Raise e.
Proof.
  intros csi pre objs item e.
  assert (H1 : encoded_as (sv := plain_services) pre objs) by (repeat constructor).
  assert (H2 : objecthandle_encode (Services := plain_services) item = Raise e)
    by reflexivity.
  pose proof (@operands_setter plain_services plain_iter csi [Integer 7]
                pre [PyInt 2] objs item e H1) as (Hlist & Hseq & Hraise).
  split; [exact H1|]. split; [exact H2|]. split; [exact Hlist|].
  split; [exact Hseq|]. exact (Hraise H2).
Defined.

(** Operands [1, 0] assigned to [cm]. *)
Lemma set_operands_then_unparse_witness :
  let csi := mkContentStreamInstruction [] (Operator "cm") in
  let csi' := mkContentStreamInstruction [Integer 1; Integer 0] (Operator "cm") in
  let items := [PyInt 1; PyInt 0] in
  csi_set_operands (sv := plain_services) plain_iter csi (PySequence items) = Ok csi' /\
  isOperator (operator_ csi) = true /\
  getOperatorValue (operator_ csi) <> "INLINE IMAGE" /\
  cast_QPDFObjectHandle (Services := plain_services) (PyObjectHandle (operator_ csi))
  = Ok (operator_ csi) /\
  unparse_content_stream (sv := plain_services) [ItemInstruction csi'] = Ok "1 0 cm" /\
  unparse_content_stream (sv := plain_services) [ItemInstruction csi']
  = unparse_content_stream (sv := plain_services)
      [ItemSequence [PySequence items; PyObjectHandle (operator_ csi)]].
Proof.
  intros csi csi' items.
  assert (H1 : csi_set_operands (sv := plain_services) plain_iter csi
                 (PySequence items) = Ok csi') by reflexivity.
  assert (H2 : isOperator (operator_ csi) = true) by reflexivity.
  assert (H3 : getOperatorValue (operator_ csi) <> "INLINE IMAGE") by discriminate.
  assert (H4 : cast_QPDFObjectHandle (Services := plain_services)
                 (PyObjectHandle (operator_ csi)) = Ok (operator_ csi)) by reflexivity.
  split; [exact H1|]. split; [exact H2|]. split; [exact H3|]. split; [exact H4|].
  split; [reflexivity|].
  exact (@set_operands_then_unparse plain_services plain_iter csi csi' items
           H1 H2 H3 H4).
Defined.

(** A single space is not the empty string: the filter is on. *)
Lemma whitelist_empty_iff_witness :
  whitelist (OperandGrouper_new " ") <> ∅ /\
  whitelist (OperandGrouper_new "") = ∅.
Proof.
  split.
  - intros H. apply (proj1 (whitelist_empty_iff " ")) in H. discriminate H.
  - exact (proj2 (whitelist_empty_iff "") eq_refl).
Defined.

(** [BI ID EI]: no payload before EI. *)
Lemma handleObject_undefined_iff_witness :
  let g := set_parsing_inline_image true (OperandGrouper_new "") in
  discarded_by_whitelist (whitelist g) "EI" = false /\
  parsing_inline_image g = true /\
  tokens g = [] /\
  handleObject g (Operator "EI") = None /\
  handleObjects (OperandGrouper_new "")
    [Operator "BI"; Operator "ID"; Operator "EI"] = None.
Proof.
  intros g.
  assert (H1 : discarded_by_whitelist (whitelist g) "EI" = false) by reflexivity.
  assert (H2 : parsing_inline_image g = true) by reflexivity.
  assert (H3 : tokens g = []) by reflexivity.
  split; [exact H1|]. split; [exact H2|]. split; [exact H3|].
  split; [|reflexivity].
  exact (proj2 (handleObject_undefined_iff g (Operator "EI"))
           (conj eq_refl (conj H1 (conj H2 H3)))).
Defined.

(** C10 as stated fails on the pair ([], 5): the integer 5 is neither text
    nor bytes nor a pikepdf object, and the call ends in the cast, with its
    [cast_error], before the test that raises the type error. *)
Lemma non_object_operator_fails_in_the_cast :
  let operator_ := PyInt 5 in
  (forall s, operator_ <> PyStr s) /\
  (forall s, operator_ <> PyBytes s) /\
  (forall h, operator_ <> PyObjectHandle h) /\
  fallback_operator (sv := plain_services) 0 operator_ = Raise cast_error /\
  unparse_content_stream (sv := plain_services)
    [ItemSequence [PySequence []; operator_]] = Raise cast_error /\
  (forall what,
     unparse_content_stream (sv := plain_services)
       [ItemSequence [PySequence []; operator_]] <> Raise (type_error what)).
Proof.
  intros operator_.
  split; [intros s; discriminate|]. split; [intros s; discriminate|].
  split; [intros h; discriminate|]. split; [reflexivity|].
  split; [reflexivity|]. intros what. vm_compute. discriminate.
Qed.
